(** * chunked-uploader: a shallow embedding of the Go package
    [chunkeduploader] (files [uploader.go] and [lib.go]).

    The in-memory index [FileManager.chunks : map[string][]string] is a
    [gmap string (list string)], an empty Go string [""] standing for an
    unfilled slot.  The file system is a [gmap string (list Byte.byte)] from a
    (cleaned) path to the bytes of the file at that path; directories are
    not represented, only whether creating them fails.  Every I/O call that
    can fail is driven by an explicit [Faults] record, so that a run of a
    request is a total function of its inputs. *)

From Stdlib Require Import ZArith String Ascii List Lia.
From stdpp Require Import base gmap strings list.

Open Scope Z_scope.

(* ------------------------------------------------------------------ *)
(** ** Strings: [path/filepath], [strconv] and [fmt %d] *)

Definition sapp (a b : string) : string := String.append a b.

(** Split a string on a separator character (Go [strings.Split]). *)
Fixpoint split_on (c : ascii) (s : string) : list string :=
  match s with
  | EmptyString => [EmptyString]
  | String a r =>
      if ascii_dec a c then EmptyString :: split_on c r
      else match split_on c r with
           | [] => [String a EmptyString]
           | x :: xs => String a x :: xs
           end
  end.

Fixpoint join_with (sep : string) (l : list string) : string :=
  match l with
  | [] => EmptyString
  | [x] => x
  | x :: xs => sapp x (sapp sep (join_with sep xs))
  end.

(** One step of the lexical processing of [filepath.Clean] on the stack of
    kept elements (kept in reverse order). *)
Definition clean_step (rooted : bool) (stk : list string) (e : string)
  : list string :=
  if String.eqb e "" then stk
  else if String.eqb e "." then stk
  else if String.eqb e ".." then
    match stk with
    | x :: r => if String.eqb x ".." then ".." :: stk else r
    | [] => if rooted then [] else [".."]
    end
  else e :: stk.

(** [filepath.Clean] (Unix separator). *)
Definition Clean (p : string) : string :=
  let rooted := match p with String "/" _ => true | _ => false end in
  let stk := fold_left (clean_step rooted) (split_on "/" p) [] in
  let body := join_with "/" (rev stk) in
  if rooted then sapp "/" body
  else if String.eqb body "" then "." else body.

(** [filepath.Join(a, b)]: empty elements are ignored and the result is
    cleaned; joining only empty elements gives [""]. *)
Definition Join (a b : string) : string :=
  if String.eqb a "" then (if String.eqb b "" then "" else Clean b)
  else if String.eqb b "" then Clean a
  else Clean (sapp a (sapp "/" b)).

(** [filepath.Ext]: the suffix from the final dot of the final element. *)
Fixpoint ext_rev (r : list ascii) (acc : list ascii) : list ascii :=
  match r with
  | [] => []
  | c :: r' =>
      if ascii_dec c "/" then []
      else if ascii_dec c "." then c :: acc
      else ext_rev r' (c :: acc)
  end.

Definition Ext (p : string) : string :=
  string_of_list_ascii (ext_rev (rev (list_ascii_of_string p)) []).

(** [fmt.Sprintf("%d", z)]. *)
Definition digit_char (d : Z) : ascii := ascii_of_nat (48 + Z.to_nat d).

Fixpoint dec_digits (fuel : nat) (z : Z) (acc : string) : string :=
  match fuel with
  | O => String (digit_char (z mod 10)) acc
  | S f =>
      if z <? 10 then String (digit_char z) acc
      else dec_digits f (z / 10) (String (digit_char (z mod 10)) acc)
  end.

Definition itoa (z : Z) : string :=
  let a := Z.abs z in
  let fuel := match a with Zpos p => Pos.size_nat p | _ => 1%nat end in
  let body := dec_digits fuel a EmptyString in
  if z <? 0 then String "-" body else body.

(** [strconv.ParseInt(s, 10, 64)] (also [strconv.Atoi] on a 64-bit
    platform): an optional sign, then at least one decimal digit, and the
    value must fit in an [int64]. *)
Definition digit_val (c : ascii) : option Z :=
  let n := Z.of_nat (nat_of_ascii c) in
  if (48 <=? n) && (n <=? 57) then Some (n - 48) else None.

Fixpoint parse_digits (s : string) (acc : Z) : option Z :=
  match s with
  | EmptyString => Some acc
  | String c r =>
      match digit_val c with
      | Some d => parse_digits r (acc * 10 + d)
      | None => None
      end
  end.

Definition int64_min : Z := - 2 ^ 63.
Definition int64_max : Z := 2 ^ 63 - 1.

Definition ParseInt (s : string) : option Z :=
  let '(neg, body) :=
    match s with
    | String "+" r => (false, r)
    | String "-" r => (true, r)
    | _ => (false, s)
    end in
  match body with
  | EmptyString => None
  | _ =>
      match parse_digits body 0 with
      | None => None
      | Some v =>
          let v' := if neg then - v else v in
          if (int64_min <=? v') && (v' <=? int64_max) then Some v' else None
      end
  end.

Definition Atoi (s : string) : option Z := ParseInt s.

(* ------------------------------------------------------------------ *)
(** ** FileManager (uploader.go, lines 62-140) *)

(** A Go call either returns or panics; the state is the one at that point
    (deferred [Unlock]s run, so a recovered panic leaves it visible). *)
Inductive outcome := Returned | Panicked.

(** [AddChunk]: allocate [make([]string, totalChunks)] for an unseen name
    (a negative length panics), then [fm.chunks[fileName][chunkIndex] =
    chunkPath], which panics when the index is out of range. *)
Definition AddChunk (fm : gmap string (list string)) (fileName chunkPath : string)
    (chunkIndex totalChunks : Z) : outcome * gmap string (list string) :=
  let alloc :=
    match fm !! fileName with
    | Some _ => Some fm
    | None =>
        if totalChunks <? 0 then None
        else Some (<[fileName := replicate (Z.to_nat totalChunks) ""]> fm)
    end in
  match alloc with
  | None => (Panicked, fm)
  | Some fm1 =>
      let slots := default [] (fm1 !! fileName) in
      if (0 <=? chunkIndex) && (chunkIndex <? Z.of_nat (length slots)) then
        (Returned, <[fileName := <[Z.to_nat chunkIndex := chunkPath]> slots]> fm1)
      else (Panicked, fm1)
  end.

Definition IsComplete (fm : gmap string (list string)) (fileName : string) : bool :=
  match fm !! fileName with
  | None => false
  | Some chunks => forallb (fun c => negb (String.eqb c "")) chunks
  end.

(** [GetChunks] of uploader.go returns a copy of the slice, or [nil]. *)
Definition GetChunks (fm : gmap string (list string)) (fileName : string) : list string :=
  match fm !! fileName with
  | Some chunks => chunks
  | None => []
  end.

Definition GetReceivedChunksCount (fm : gmap string (list string)) (fileName : string) : Z :=
  match fm !! fileName with
  | None => 0
  | Some chunks => Z.of_nat (length (filter (fun c => c <> "") chunks))
  end.

Definition RemoveFile (fm : gmap string (list string)) (fileName : string)
  : gmap string (list string) :=
  delete fileName fm.

Definition GetStatusCounts (fm : gmap string (list string)) (fileName : string)
  : bool * Z * Z :=
  (IsComplete fm fileName, GetReceivedChunksCount fm fileName,
   Z.of_nat (length (GetChunks fm fileName))).

(* ------------------------------------------------------------------ *)
(** ** Configuration, process state, faults and errors *)

Record Config := {
  TempDir : string;
  UploadsDir : string;
  MaxMemory : Z;
  AutoCleanup : bool
}.

Definition DefaultConfig : Config :=
  {| TempDir := "./temp_chunks"; UploadsDir := "./uploads";
     MaxMemory := 32 * 2 ^ 20; AutoCleanup := true |}.

Record ChunkInfo := {
  FileName : string;
  ChunkIndex : Z;
  TotalChunks : Z;
  FileSize : Z
}.

(** The state a request sees: the uploader's index and the file system. *)
Record State := {
  fm : gmap string (list string);
  fs : gmap string (list Byte.byte)
}.

Definition with_fm (st : State) (m : gmap string (list string)) : State :=
  {| fm := m; fs := fs st |}.
Definition with_fs (st : State) (f : gmap string (list Byte.byte)) : State :=
  {| fm := fm st; fs := f |}.

(** Which I/O call of a request fails.  [copy_temp_fails = Some k]: the
    copy of the request body into the chunk file fails after [k] bytes;
    [copy_final_fails = Some i]: copying chunk [i] into the final file
    fails before writing anything. *)
Record Faults := {
  mkdir_temp_fails : bool;
  create_temp_fails : bool;
  copy_temp_fails : option nat;
  mkdir_uploads_fails : bool;
  create_final_fails : bool;
  copy_final_fails : option nat
}.

Definition NoFaults : Faults :=
  {| mkdir_temp_fails := false; create_temp_fails := false;
     copy_temp_fails := None; mkdir_uploads_fails := false;
     create_final_fails := false; copy_final_fails := None |}.

Inductive StitchError :=
  | ECreateUploadsDir
  | ECreateFinalFile
  | EMissingChunk (i : Z) (fileName : string)
  | EOpenChunk (i : Z)
  | ECopyChunk (i : Z)
  | ESizeMismatch (expected got : Z).

Inductive UploadError :=
  | EMethodNotAllowed
  | EParseForm
  | EFileNameRequired
  | EInvalidChunkIndex
  | EInvalidTotalChunks
  | EInvalidFileSize
  | EGetFile
  | ECreateTempDir
  | ECreateTempFile
  | ESaveChunk
  | EStitching (e : StitchError).

Inductive UploadResponse :=
  | ChunkReceived (fileName : string) (chunkIndex totalChunks : Z)
  | Complete (fileName : string) (filePath : string) (receivedSize : Z).

(** The result of one request: a response, an error, or a panic. *)
Inductive Outcome (R : Type) :=
  | ROk (r : R)
  | RErr (e : UploadError)
  | RPanic.
Arguments ROk {R} r.
Arguments RErr {R} e.
Arguments RPanic {R}.

(* ------------------------------------------------------------------ *)
(** ** Assembly (uploader.go, lines 356-404) *)

(** The loop [for i, chunkPath := range chunks]: append each chunk file to
    the final file, counting the bytes written. *)
Fixpoint copy_chunks (flt : Faults) (fileName finalPath : string) (i : nat)
    (chunks : list string) (total : Z) (f : gmap string (list Byte.byte))
  : (StitchError + Z) * gmap string (list Byte.byte) :=
  match chunks with
  | [] => (inr total, f)
  | chunkPath :: rest =>
      if String.eqb chunkPath "" then (inl (EMissingChunk (Z.of_nat i) fileName), f)
      else match f !! chunkPath with
      | None => (inl (EOpenChunk (Z.of_nat i)), f)
      | Some data =>
          if decide (copy_final_fails flt = Some i) then (inl (ECopyChunk (Z.of_nat i)), f)
          else
            let f' := <[finalPath := default [] (f !! finalPath) ++ data]> f in
            copy_chunks flt fileName finalPath (S i) rest (total + Z.of_nat (length data)) f'
      end
  end.

Definition finalPathOf (cfg : Config) (fileName : string) : string :=
  Join (UploadsDir cfg) fileName.

Definition stitchFile (cfg : Config) (flt : Faults) (fileName : string)
    (expectedSize : Z) (st : State) : (StitchError + string) * State :=
  let chunks := GetChunks (fm st) fileName in
  if mkdir_uploads_fails flt then (inl ECreateUploadsDir, st) else
  let finalPath := finalPathOf cfg fileName in
  if create_final_fails flt then (inl ECreateFinalFile, st) else
  let f0 := <[finalPath := []]> (fs st) in
  match copy_chunks flt fileName finalPath 0 chunks 0 f0 with
  | (inl e, f1) => (inl e, with_fs st f1)
  | (inr totalWritten, f1) =>
      if decide (totalWritten <> expectedSize) then
        (inl (ESizeMismatch expectedSize totalWritten), with_fs st (delete finalPath f1))
      else (inr finalPath, with_fs st f1)
  end.

(** [cleanupChunks]: delete every recorded chunk file, then the entry. *)
Definition cleanupChunks (fileName : string) (st : State) : State :=
  let chunks := GetChunks (fm st) fileName in
  let f := fold_left (fun f p => if String.eqb p "" then f else delete p f) chunks (fs st) in
  {| fm := RemoveFile (fm st) fileName; fs := f |}.

(* ------------------------------------------------------------------ *)
(** ** Chunk processing (uploader.go, lines 303-354) *)

Definition chunkPathOf (dir fileName : string) (chunkIndex : Z) : string :=
  Join dir (sapp fileName (sapp "_chunk_" (itoa chunkIndex))).

(** Create the chunk file (truncating it) and copy the request body in. *)
Definition saveChunk (flt : Faults) (chunkPath : string) (payload : list Byte.byte)
    (f : gmap string (list Byte.byte)) : option UploadError * gmap string (list Byte.byte) :=
  if create_temp_fails flt then (Some ECreateTempFile, f) else
  match copy_temp_fails flt with
  | Some k => (Some ESaveChunk, <[chunkPath := take k payload]> f)
  | None => (None, <[chunkPath := payload]> f)
  end.

Definition processChunk (cfg : Config) (flt : Faults) (info : ChunkInfo)
    (payload : list Byte.byte) (st : State) : Outcome UploadResponse * State :=
  if mkdir_temp_fails flt then (RErr ECreateTempDir, st) else
  let chunkPath := chunkPathOf (TempDir cfg) (FileName info) (ChunkIndex info) in
  match saveChunk flt chunkPath payload (fs st) with
  | (Some e, f) => (RErr e, with_fs st f)
  | (None, f) =>
      let st1 := with_fs st f in
      match AddChunk (fm st1) (FileName info) chunkPath (ChunkIndex info) (TotalChunks info) with
      | (Panicked, m) => (RPanic, with_fm st1 m)
      | (Returned, m) =>
          let st2 := with_fm st1 m in
          if IsComplete (fm st2) (FileName info) then
            match stitchFile cfg flt (FileName info) (FileSize info) st2 with
            | (inl e, st3) => (RErr (EStitching e), st3)
            | (inr finalPath, st3) =>
                let st4 := if AutoCleanup cfg then cleanupChunks (FileName info) st3 else st3 in
                (ROk (Complete (FileName info) finalPath (FileSize info)), st4)
            end
          else (ROk (ChunkReceived (FileName info) (ChunkIndex info) (TotalChunks info)), st2)
      end
  end.

(* ------------------------------------------------------------------ *)
(** ** Request handling (uploader.go, lines 164-301) *)

(** The part of an [*http.Request] the handlers read: the method, whether
    [ParseMultipartForm] succeeds, the form values in order, and the file
    part named [chunk] if present. *)
Record Request := {
  Method : string;
  FormParses : bool;
  Form : list (string * string);
  ChunkPart : option (list Byte.byte)
}.

(** [r.FormValue(key)]: the first value for [key], or [""]. *)
Definition FormValue (r : Request) (key : string) : string :=
  match List.find (fun kv => String.eqb (fst kv) key) (Form r) with
  | Some kv => snd kv
  | None => ""
  end.

Definition extractChunkInfo (r : Request) : UploadError + ChunkInfo :=
  let fileName := FormValue r "fileName" in
  if String.eqb fileName "" then inl EFileNameRequired else
  match Atoi (FormValue r "chunkIndex") with
  | None => inl EInvalidChunkIndex
  | Some chunkIndex =>
      match Atoi (FormValue r "totalChunks") with
      | None => inl EInvalidTotalChunks
      | Some totalChunks =>
          match ParseInt (FormValue r "fileSize") with
          | None => inl EInvalidFileSize
          | Some fileSize =>
              inr {| FileName := fileName; ChunkIndex := chunkIndex;
                     TotalChunks := totalChunks; FileSize := fileSize |}
          end
      end
  end.

Definition HandleUpload (cfg : Config) (flt : Faults) (r : Request) (st : State)
  : Outcome UploadResponse * State :=
  if negb (String.eqb (Method r) "POST") then (RErr EMethodNotAllowed, st) else
  if negb (FormParses r) then (RErr EParseForm, st) else
  match extractChunkInfo r with
  | inl e => (RErr e, st)
  | inr info =>
      match ChunkPart r with
      | None => (RErr EGetFile, st)
      | Some file => processChunk cfg flt info file st
      end
  end.

Record StatusResponse := {
  SFileName : string;
  SIsComplete : bool;
  SReceivedChunks : Z;
  STotalChunks : Z
}.

(** [Uploader.GetStatus] (uploader.go, lines 237-245). *)
Definition GetStatus (st : State) (fileName : string) : StatusResponse :=
  {| SFileName := fileName;
     SIsComplete := IsComplete (fm st) fileName;
     SReceivedChunks := GetReceivedChunksCount (fm st) fileName;
     STotalChunks := Z.of_nat (length (GetChunks (fm st) fileName)) |}.

(** [Uploader.CleanupFile]. *)
Definition CleanupFile (fileName : string) (st : State) : State :=
  cleanupChunks fileName st.

(* ------------------------------------------------------------------ *)
(** ** The global helper of lib.go *)

Definition ascii_lower (c : ascii) : ascii :=
  let n := nat_of_ascii c in
  if (65 <=? n)%nat && (n <=? 90)%nat then ascii_of_nat (n + 32) else c.

Definition ToLower (s : string) : string :=
  string_of_list_ascii (map ascii_lower (list_ascii_of_string s)).

(** [mime.TypeByExtension] on Go's built-in table (the system
    [mime.types] files are not modelled). *)
Definition builtinTypes : list (string * string) :=
  [(".avif", "image/avif"); (".css", "text/css; charset=utf-8");
   (".gif", "image/gif"); (".htm", "text/html; charset=utf-8");
   (".html", "text/html; charset=utf-8"); (".jpeg", "image/jpeg");
   (".jpg", "image/jpeg"); (".js", "text/javascript; charset=utf-8");
   (".json", "application/json"); (".mjs", "text/javascript; charset=utf-8");
   (".pdf", "application/pdf"); (".png", "image/png");
   (".svg", "image/svg+xml"); (".wasm", "application/wasm");
   (".webp", "image/webp"); (".xml", "text/xml; charset=utf-8")].

Definition TypeByExtension (ext : string) : string :=
  match List.find (fun kv => String.eqb (fst kv) ext) builtinTypes with
  | Some kv => snd kv
  | None => ""
  end.

Record Metadata := {
  MStatus : string;
  MOriginalName : string;
  MStoredName : string;
  MFileSize : Z;
  MMimeType : string;
  MPath : string
}.

Inductive LegacyResponse :=
  | LComplete (fileName : string) (message : string) (metadata : Metadata)
  | LChunkReceived (fileName : string) (chunkIndex totalChunks : Z).

(** [stitchFile] of lib.go (lines 19-87); [guid] is the string returned by
    [uuid.New().String()] for this call. *)
Definition legacy_stitchFile (flt : Faults) (guid fileName : string)
    (expectedSize : Z) (st : State) : (StitchError + Metadata) * State :=
  let chunks := GetChunks (fm st) fileName in
  let uploadsDir := "./uploads" in
  if mkdir_uploads_fails flt then (inl ECreateUploadsDir, st) else
  let ext := Ext fileName in
  let storedName := sapp guid ext in
  let finalPath := Join uploadsDir storedName in
  if create_final_fails flt then (inl ECreateFinalFile, st) else
  let f0 := <[finalPath := []]> (fs st) in
  match copy_chunks flt fileName finalPath 0 chunks 0 f0 with
  | (inl e, f1) => (inl e, with_fs st f1)
  | (inr totalWritten, f1) =>
      if decide (totalWritten <> expectedSize) then
        (inl (ESizeMismatch expectedSize totalWritten), with_fs st (delete finalPath f1))
      else
        let mt := TypeByExtension (ToLower ext) in
        let mimeType := if String.eqb mt "" then "application/octet-stream" else mt in
        (inr {| MStatus := "complete"; MOriginalName := fileName;
                MStoredName := storedName; MFileSize := totalWritten;
                MMimeType := mimeType; MPath := finalPath |}, with_fs st f1)
  end.

(** [UploaderHelper] of lib.go (lines 163-252), on the global file
    manager; its [cleanupChunks] (lines 89-106) deletes the same files as
    the uploader's and only logs more. *)
Definition UploaderHelper (flt : Faults) (guid : string) (r : Request) (st : State)
  : Outcome LegacyResponse * State :=
  if negb (String.eqb (Method r) "POST") then (RErr EMethodNotAllowed, st) else
  if negb (FormParses r) then (RErr EParseForm, st) else
  match extractChunkInfo r with
  | inl e => (RErr e, st)
  | inr info =>
      match ChunkPart r with
      | None => (RErr EGetFile, st)
      | Some file =>
          if mkdir_temp_fails flt then (RErr ECreateTempDir, st) else
          let chunkPath := chunkPathOf "./temp_chunks" (FileName info) (ChunkIndex info) in
          match saveChunk flt chunkPath file (fs st) with
          | (Some e, f) => (RErr e, with_fs st f)
          | (None, f) =>
              let st1 := with_fs st f in
              match AddChunk (fm st1) (FileName info) chunkPath (ChunkIndex info) (TotalChunks info) with
              | (Panicked, m) => (RPanic, with_fm st1 m)
              | (Returned, m) =>
                  let st2 := with_fm st1 m in
                  if IsComplete (fm st2) (FileName info) then
                    match legacy_stitchFile flt guid (FileName info) (FileSize info) st2 with
                    | (inl e, st3) => (RErr (EStitching e), st3)
                    | (inr md, st3) =>
                        (ROk (LComplete (FileName info) "File uploaded and stitched successfully" md),
                         cleanupChunks (FileName info) st3)
                    end
                  else (ROk (LChunkReceived (FileName info) (ChunkIndex info) (TotalChunks info)), st2)
              end
          end
      end
  end.

(* ------------------------------------------------------------------ *)
(** ** Sanity checks on small inputs *)

Example Clean_ex1 : Clean "./uploads/x.txt" = "uploads/x.txt".
Proof. reflexivity. Qed.
Example Clean_ex2 : Join "./uploads" "../a/./b//c" = "a/b/c".
Proof. reflexivity. Qed.
Example Clean_ex3 : Join "/tmp" "../../x" = "/x".
Proof. reflexivity. Qed.
Example Ext_ex : Ext "dir.v/archive.tar.gz" = ".gz" /\ Ext "dir.v/file" = "".
Proof. split; reflexivity. Qed.
Example itoa_ex : itoa 0 = "0" /\ itoa 1207 = "1207" /\ itoa (-35) = "-35".
Proof. repeat split; reflexivity. Qed.
Example Atoi_ex : Atoi "+12" = Some 12 /\ Atoi "-7" = Some (-7) /\ Atoi "" = None
  /\ Atoi "1x" = None /\ Atoi "-" = None /\ Atoi "9223372036854775808" = None.
Proof. repeat split; reflexivity. Qed.
Example chunkPath_ex : chunkPathOf "./temp_chunks" "a.bin" 3 = "temp_chunks/a.bin_chunk_3".
Proof. reflexivity. Qed.

(* ------------------------------------------------------------------ *)
(** ** Sequences of submissions for one upload *)

Definition mkInfo (fileName : string) (i n sz : Z) : ChunkInfo :=
  {| FileName := fileName; ChunkIndex := i; TotalChunks := n; FileSize := sz |}.

(** Requests processed one after the other, each one declaring the same
    name, total and size; [subs] lists (chunkIndex, payload). *)
Fixpoint submit_seq (cfg : Config) (fileName : string) (n sz : Z)
    (subs : list (Z * list Byte.byte)) (st : State)
  : list (Outcome UploadResponse) * State :=
  match subs with
  | [] => ([], st)
  | (i, b) :: rest =>
      let '(o, st1) := processChunk cfg NoFaults (mkInfo fileName i n sz) b st in
      let '(os, st2) := submit_seq cfg fileName n sz rest st1 in
      (o :: os, st2)
  end.

Definition emptyState : State := {| fm := ∅; fs := ∅ |}.

Definition bytes (s : string) : list Byte.byte := list_byte_of_string s.

(** A sequence of inserts, for any names. *)
Fixpoint AddChunks (m : gmap string (list string))
    (ops : list (string * string * Z * Z)) : gmap string (list string) :=
  match ops with
  | [] => m
  | (g, p, i, t) :: rest => AddChunks (AddChunk m g p i t).2 rest
  end.

(* ------------------------------------------------------------------ *)
(** ** Sample inputs *)

(** An upload of ["Hello World"] as two chunks, chunk 0 already recorded. *)
Definition sample_state : State :=
  {| fm := {[ "a.bin" := ["temp_chunks/a.bin_chunk_0"; ""] ]};
     fs := {[ "temp_chunks/a.bin_chunk_0" := bytes "Hello" ]} |}.

(** The request carrying chunk 1. *)
Definition sample_request : Request :=
  {| Method := "POST"; FormParses := true;
     Form := [("fileName", "a.bin"); ("chunkIndex", "1");
              ("totalChunks", "2"); ("fileSize", "11")];
     ChunkPart := Some (bytes " World") |}.

(** Writing the chunk file fails after 3 bytes. *)
Definition copy_fault : Faults :=
  {| mkdir_temp_fails := false; create_temp_fails := false;
     copy_temp_fails := Some 3%nat; mkdir_uploads_fails := false;
     create_final_fails := false; copy_final_fails := None |}.

(* ------------------------------------------------------------------ *)
(** ** Vocabulary of the properties of whole uploads *)

(** The payload of the last submission with index [j] in [subs]. *)
Definition last_payload (j : Z) (subs : list (Z * list Byte.byte)) : list Byte.byte :=
  fold_left (fun acc ib => if Z.eqb ib.1 j then ib.2 else acc) subs [].

(** The payload of the first submission with index [j] in [subs]. *)
Definition payload_at (j : Z) (subs : list (Z * list Byte.byte)) : list Byte.byte :=
  match List.find (fun ib => Z.eqb ib.1 j) subs with
  | Some ib => ib.2
  | None => []
  end.

(** The bytes picked for each index [0..n-1], concatenated in index order. *)
Definition in_index_order (pick : Z -> list Byte.byte) (n : nat) : list Byte.byte :=
  concat (map (fun j => pick (Z.of_nat j)) (seq 0 n)).

(** Whether the indices of [subs] include all of [0..n-1]. *)
Definition covers (n : nat) (subs : list (Z * list Byte.byte)) : bool :=
  forallb (fun j => bool_decide (Z.of_nat j ∈ map fst subs)) (seq 0 n).

(** The final path and the chunk paths [0..n-1] of an upload are pairwise
    distinct file names. *)
Definition distinct_paths (cfg : Config) (fileName : string) (n : nat) : Prop :=
  NoDup (finalPathOf cfg fileName ::
         map (fun j => chunkPathOf (TempDir cfg) fileName (Z.of_nat j)) (seq 0 n)).

(** The entry of an upload after the submissions [l]: slot [j] holds the
    chunk path of [j] once [j] has been submitted. *)
Definition slots_of (cfg : Config) (fileName : string) (n : nat)
    (l : list (Z * list Byte.byte)) : list string :=
  (fun j => if bool_decide (Z.of_nat j ∈ map fst l)
            then chunkPathOf (TempDir cfg) fileName (Z.of_nat j) else "") <$> seq 0 n.

(** The state of an upload after the non-completing submissions [pre]:
    the entry is [slots_of pre] (or absent before the first one), every
    index is in range, and each submitted chunk file holds the payload of
    the last submission of its index. *)
Definition upload_inv (cfg : Config) (fileName : string) (n : nat)
    (pre : list (Z * list Byte.byte)) (st : State) : Prop :=
  (fm st !! fileName = None /\ pre = [] \/
   fm st !! fileName = Some (slots_of cfg fileName n pre)) /\
  Forall (fun j => 0 <= j < Z.of_nat n) (map fst pre) /\
  (forall j, j ∈ map fst pre ->
     fs st !! chunkPathOf (TempDir cfg) fileName j = Some (last_payload j pre)).

(* ------------------------------------------------------------------ *)
(** ** Recorded chunk paths *)

(** Every filled slot [j] of an entry holds the chunk path of index [j]
    in [TempDir]. *)
Definition chunk_paths_wf (cfg : Config) (m : gmap string (list string)) : Prop :=
  forall f slots j p, m !! f = Some slots -> slots !! j = Some p ->
    p = "" \/ p = chunkPathOf (TempDir cfg) f (Z.of_nat j).

(** The length of the entry a request for [info] works on: the existing
    one, or the one allocated from its [TotalChunks]. *)
Definition entry_len (m : gmap string (list string)) (info : ChunkInfo) : nat :=
  match m !! FileName info with
  | Some slots => length slots
  | None => Z.to_nat (TotalChunks info)
  end.

(** An upload of ["Hello World"] in two chunks in which a request with the
    out-of-range index 5 comes between the two chunks. *)
Definition stray_subs : list (Z * list Byte.byte) :=
  [(0, bytes "Hello"); (5, bytes "junk"); (1, bytes " World")].

(* ------------------------------------------------------------------ *)
(** ** The index with its slices shared *)

(** A Go slice refers to a backing array: here the index maps a name to
    the location of its array in a heap of arrays, and a slice handed out
    by [GetChunks] is a location ([None] for [nil]). *)
Module SliceHeap.

Record Heap := {
  arrays : gmap nat (list string);
  index : gmap string nat;
  next : nat
}.

Definition empty : Heap := {| arrays := ∅; index := ∅; next := 0 |}.

(** The elements a slice sees. *)
Definition read (h : Heap) (s : option nat) : list string :=
  match s with
  | Some l => default [] (arrays h !! l)
  | None => []
  end.

(** [make]: a fresh backing array holding [a]. *)
Definition alloc (h : Heap) (a : list string) : Heap * nat :=
  ({| arrays := <[next h := a]> (arrays h); index := index h; next := S (next h) |}, next h).

(** [AddChunk] (the same code in lib.go and uploader.go): allocate
    [make([]string, totalChunks)] for an unseen name, then store into the
    array of [fm.chunks[fileName]]. *)
Definition AddChunk (h : Heap) (fileName chunkPath : string) (chunkIndex totalChunks : Z)
  : outcome * Heap :=
  let alloc' :=
    match index h !! fileName with
    | Some _ => Some h
    | None =>
        if totalChunks <? 0 then None
        else
          let '(h1, l) := alloc h (replicate (Z.to_nat totalChunks) "") in
          Some {| arrays := arrays h1; index := <[fileName := l]> (index h1); next := next h1 |}
    end in
  match alloc' with
  | None => (Panicked, h)
  | Some h1 =>
      match index h1 !! fileName with
      | None => (Panicked, h1) (* not reached: the name was just bound *)
      | Some l =>
          let slots := default [] (arrays h1 !! l) in
          if (0 <=? chunkIndex) && (chunkIndex <? Z.of_nat (length slots)) then
            (Returned, {| arrays := <[l := <[Z.to_nat chunkIndex := chunkPath]> slots]> (arrays h1);
                          index := index h1; next := next h1 |})
          else (Panicked, h1)
      end
  end.

Fixpoint AddChunks (h : Heap) (ops : list (string * string * Z * Z)) : Heap :=
  match ops with
  | [] => h
  | (g, p, i, t) :: rest => AddChunks (AddChunk h g p i t).2 rest
  end.

(** [GetChunks] of uploader.go: [make] a result slice and [copy] into it. *)
Definition GetChunks (h : Heap) (fileName : string) : Heap * option nat :=
  match index h !! fileName with
  | Some l =>
      let '(h1, r) := alloc h (default [] (arrays h !! l)) in (h1, Some r)
  | None => (h, None)
  end.

(** [GetChunks] of lib.go: [return fm.chunks[fileName]], the slice of the
    index itself. *)
Definition legacy_GetChunks (h : Heap) (fileName : string) : option nat :=
  index h !! fileName.

(** Every array bound in the index lies below the allocation pointer. *)
Definition index_below_next (h : Heap) : Prop :=
  forall f l, index h !! f = Some l -> (l < next h)%nat.

End SliceHeap.

(** The range of [int64], where [strconv.ParseInt(s, 10, 64)] succeeds. *)
Definition in_int64 (z : Z) : bool := (int64_min <=? z) && (z <=? int64_max).

(** The form fields a client builds from a [ChunkInfo] with [fmt] [%d]. *)
Definition chunk_form (info : ChunkInfo) : list (string * string) :=
  [("fileName", FileName info); ("chunkIndex", itoa (ChunkIndex info));
   ("totalChunks", itoa (TotalChunks info)); ("fileSize", itoa (FileSize info))].

(** When [AddChunk] panics: [make] with a negative length, or an index
    outside the slice of the entry. *)
Definition AddChunk_panics (m : gmap string (list string)) (fileName : string)
    (chunkIndex totalChunks : Z) : bool :=
  match m !! fileName with
  | Some slots => negb ((0 <=? chunkIndex) && (chunkIndex <? Z.of_nat (length slots)))
  | None => (totalChunks <? 0) || negb ((0 <=? chunkIndex) && (chunkIndex <? totalChunks))
  end.

(** The index after [AddChunk] has panicked: the entry allocated by [make],
    if any, stays. *)
Definition alloc_entry (m : gmap string (list string)) (fileName : string)
    (totalChunks : Z) : gmap string (list string) :=
  match m !! fileName with
  | Some _ => m
  | None => if totalChunks <? 0 then m else <[fileName := replicate (Z.to_nat totalChunks) ""]> m
  end.

(** A single path element: not empty, not [.] or [..], no separator. *)
Definition plain_name (g : string) : Prop :=
  g <> "" /\ g <> "." /\ g <> ".." /\ ~ In "/"%char (list_ascii_of_string g).

(** Sample data: two recorded chunks of [a.bin], both on disk. *)
Definition two_chunk_state : State :=
  {| fm := {[ "a.bin" := ["p0"; "p1"] ]};
     fs := <[ "p0" := bytes "Hello" ]> {[ "p1" := bytes " World" ]} |}.

(** The default configuration with [AutoCleanup] off. *)
Definition keep_config : Config :=
  {| TempDir := "./temp_chunks"; UploadsDir := "./uploads";
     MaxMemory := 32 * 2 ^ 20; AutoCleanup := false |}.

(** Copying the second chunk into the final file fails. *)
Definition final_copy_fault : Faults :=
  {| mkdir_temp_fails := false; create_temp_fails := false;
     copy_temp_fails := None; mkdir_uploads_fails := false;
     create_final_fails := false; copy_final_fails := Some 1%nat |}.



(** Two recorded chunks of a file named [../photo.JPG]. *)
Definition dotdot_state : State :=
  {| fm := {[ "../photo.JPG" := ["p0"; "p1"] ]};
     fs := <[ "p0" := bytes "Hello" ]> {[ "p1" := bytes " World" ]} |}.

(** The metadata of the legacy helper for [../photo.JPG] stored as [g1.JPG]. *)
Definition dotdot_md : Metadata :=
  {| MStatus := "complete"; MOriginalName := "../photo.JPG"; MStoredName := "g1.JPG";
     MFileSize := 11; MMimeType := "image/jpeg"; MPath := "uploads/g1.JPG" |}.

(* ================================================================== *)
(** * Properties *)

(* ------------------------------------------------------------------ *)
(** ** FileManager lemmas *)

Lemma forallb_nonempty_count (l : list string) :
  forallb (fun c => negb (String.eqb c "")) l =
  Nat.eqb (length (filter (fun c => c <> "") l)) (length l).
Proof.
  induction l as [|c l IH]; [reflexivity|]. simpl.
  rewrite filter_cons. destruct (String.eqb_spec c ""); simpl.
  - subst. rewrite decide_False by congruence. simpl.
    symmetry. apply Nat.eqb_neq.
    pose proof (length_filter (fun c => c <> "") l). lia.
  - rewrite decide_True by assumption. simpl. exact IH.
Qed.

Lemma AddChunk_existing (m : gmap string (list string)) f p i t slots :
  m !! f = Some slots ->
  AddChunk m f p i t =
    if (0 <=? i) && (i <? Z.of_nat (length slots)) then
      (Returned, <[f := <[Z.to_nat i := p]> slots]> m)
    else (Panicked, m).
Proof. intros H. unfold AddChunk. rewrite H. simpl. rewrite H. reflexivity. Qed.

Lemma AddChunk_fresh (m : gmap string (list string)) f p i t :
  m !! f = None -> 0 <= t ->
  AddChunk m f p i t =
    let m1 := <[f := replicate (Z.to_nat t) ""]> m in
    if (0 <=? i) && (i <? t) then
      (Returned, <[f := <[Z.to_nat i := p]> (replicate (Z.to_nat t) "")]> m1)
    else (Panicked, m1).
Proof.
  intros H Ht. unfold AddChunk. rewrite H.
  destruct (t <? 0) eqn:E; [lia|]. simpl.
  rewrite lookup_insert_eq. simpl. rewrite length_replicate.
  rewrite Z2Nat.id by lia. reflexivity.
Qed.

(** The length of an existing entry is kept by [AddChunk], whether it
    returns or panics, and whatever total the call declares. *)
Lemma AddChunk_length (m : gmap string (list string)) f g p i t slots :
  m !! f = Some slots ->
  exists slots', (AddChunk m g p i t).2 !! f = Some slots' /\
                 length slots' = length slots.
Proof.
  intros H. destruct (decide (f = g)) as [->|Hne].
  - rewrite (AddChunk_existing _ _ _ _ _ slots H).
    destruct (_ && _); simpl.
    + eexists. rewrite lookup_insert_eq. split; [reflexivity|]. apply length_insert.
    + eauto.
  - unfold AddChunk. destruct (m !! g) eqn:Eg.
    + simpl. rewrite Eg. simpl. destruct (_ && _); simpl.
      * rewrite lookup_insert_ne by congruence. eauto.
      * eauto.
    + destruct (t <? 0); simpl; [eauto|].
      rewrite lookup_insert_eq. simpl.
      destruct (_ && _); simpl; rewrite ?lookup_insert_ne by congruence; eauto.
Qed.

(* ------------------------------------------------------------------ *)
(** ** C4: the status of an upload *)

(** C4. For a name whose entry has length [n] with exactly [k] filled
    slots, [GetStatus] reports [receivedChunks = k], [totalChunks = n] and
    [isComplete = (k == n)]; for a name without entry it reports
    not complete, 0 received and 0 total. *)
Theorem GetStatus_spec (st : State) (fileName : string) :
  (forall (slots : list string) (n k : nat),
     fm st !! fileName = Some slots ->
     length slots = n ->
     length (filter (fun c => c <> "") slots) = k ->
     GetStatus st fileName =
       {| SFileName := fileName; SIsComplete := Nat.eqb k n;
          SReceivedChunks := Z.of_nat k; STotalChunks := Z.of_nat n |}) /\
  (fm st !! fileName = None ->
     GetStatus st fileName =
       {| SFileName := fileName; SIsComplete := false;
          SReceivedChunks := 0; STotalChunks := 0 |}).
Proof.
  split.
  - intros slots n k H Hn Hk. unfold GetStatus, IsComplete,
      GetReceivedChunksCount, GetChunks. rewrite H.
    rewrite forallb_nonempty_count. subst. reflexivity.
  - intros H. unfold GetStatus, IsComplete, GetReceivedChunksCount, GetChunks.
    rewrite H. reflexivity.
Qed.

(* ------------------------------------------------------------------ *)
(** ** C6: the length of an entry is fixed at creation *)

(** C6. The first insert for an unseen name allocates an entry whose
    length is the total it declares (even if it then panics on its index),
    and from then on every insert, for this or any other name and
    whatever total it declares, keeps that length. *)
Theorem entry_length_fixed :
  (forall (m : gmap string (list string)) f p i t,
     m !! f = None -> 0 <= t ->
     exists slots, (AddChunk m f p i t).2 !! f = Some slots /\
                   length slots = Z.to_nat t) /\
  (forall (m : gmap string (list string)) f slots ops,
     m !! f = Some slots ->
     exists slots', AddChunks m ops !! f = Some slots' /\
                    length slots' = length slots).
Proof.
  split.
  - intros m f p i t H Ht. rewrite (AddChunk_fresh m f p i t H Ht). simpl.
    destruct (_ && _); simpl; rewrite lookup_insert_eq; eexists; split;
      try reflexivity; rewrite ?length_insert; apply length_replicate.
  - intros m f slots ops. revert m slots.
    induction ops as [|[[[g p] i] t] ops IH]; intros m slots H; simpl; [eauto|].
    destruct (AddChunk_length m f g p i t slots H) as (s1 & H1 & L1).
    destruct (IH _ _ H1) as (s2 & H2 & L2). exists s2. split; [exact H2|lia].
Qed.

(* ------------------------------------------------------------------ *)
(** ** C2: an out-of-range index on an existing entry *)

(** C2 (as stated: the call returns normally and the entry is unchanged)
    fails: [fm.chunks[fileName][chunkIndex] = chunkPath] with an index
    past the end panics. *)
Lemma AddChunk_out_of_range_returns_cex :
  ~ (forall (m : gmap string (list string)) f p i t slots,
       m !! f = Some slots ->
       ~ (0 <= i < Z.of_nat (length slots)) ->
       AddChunk m f p i t = (Returned, m)).
Proof.
  intros H.
  specialize (H {[ "a.bin" := [""; ""] ]} "a.bin" "temp_chunks/a.bin_chunk_5" 5 2
                [""; ""] (lookup_singleton_eq _ _)).
  assert (Hr : ~ (0 <= 5 < Z.of_nat (length ["";""]))) by (simpl; lia).
  specialize (H Hr). vm_compute in H. discriminate H.
Qed.

(** C2, corrected: for a name with an entry, an insert whose index is out
    of range does not return; it panics before writing, leaving the whole
    index unchanged (the deferred unlock releases the lock). *)
Theorem AddChunk_out_of_range_panics (m : gmap string (list string)) f p i t
    (slots : list string) :
  m !! f = Some slots ->
  ~ (0 <= i < Z.of_nat (length slots)) ->
  AddChunk m f p i t = (Panicked, m).
Proof.
  intros H Hr. rewrite (AddChunk_existing m f p i t slots H).
  destruct (0 <=? i) eqn:E1; destruct (i <? Z.of_nat (length slots)) eqn:E2;
    simpl; try reflexivity.
  exfalso. apply Hr. lia.
Qed.

Lemma AddChunk_out_of_range_panics_witness :
  ({[ "a.bin" := [""; ""] ]} : gmap string (list string)) !! "a.bin" = Some [""; ""] /\
  ~ (0 <= 5 < Z.of_nat (length [""; ""])) /\
  AddChunk ({[ "a.bin" := [""; ""] ]} : gmap string (list string)) "a.bin" "temp_chunks/a.bin_chunk_5" 5 2 =
    (Panicked, {[ "a.bin" := [""; ""] ]}).
Proof.
  split; [reflexivity|]. split; [simpl; lia|].
  apply (AddChunk_out_of_range_panics _ _ _ _ _ [""; ""]); [reflexivity | simpl; lia].
Defined.

(** C4 at a concrete index: two of three slots filled, and an unknown name. *)
Lemma GetStatus_spec_witness :
  GetStatus {| fm := {[ "a.bin" := ["p0"; ""; "p2"] ]}; fs := ∅ |} "a.bin" =
    {| SFileName := "a.bin"; SIsComplete := false;
       SReceivedChunks := 2; STotalChunks := 3 |} /\
  GetStatus {| fm := {[ "a.bin" := ["p0"; ""; "p2"] ]}; fs := ∅ |} "b.bin" =
    {| SFileName := "b.bin"; SIsComplete := false;
       SReceivedChunks := 0; STotalChunks := 0 |}.
Proof.
  split.
  - apply (proj1 (GetStatus_spec _ _) ["p0"; ""; "p2"] 3%nat 2%nat); reflexivity.
  - apply (proj2 (GetStatus_spec _ _)). reflexivity.
Defined.

Lemma entry_length_fixed_witness :
  (exists slots,
     (AddChunk ∅ "a.bin" "temp_chunks/a.bin_chunk_0" 0 3).2 !! "a.bin" = Some slots /\
     length slots = 3%nat) /\
  (exists slots',
     AddChunks {[ "a.bin" := [""; ""; ""] ]}
       [("a.bin", "temp_chunks/a.bin_chunk_1", 1, 7); ("b.bin", "x", 0, 1)]
       !! "a.bin" = Some slots' /\ length slots' = 3%nat).
Proof.
  split.
  - apply (proj1 entry_length_fixed); [reflexivity | lia].
  - apply (proj2 entry_length_fixed _ _ [""; ""; ""]). reflexivity.
Defined.

(* ------------------------------------------------------------------ *)
(** ** The copy loop of the assembler *)

Lemma copy_chunks_ok (flt : Faults) fileName finalPath (i : nat)
    (chunks : list string) (tot : Z) (f : gmap string (list Byte.byte))
    (base : list Byte.byte) :
  copy_final_fails flt = None ->
  f !! finalPath = Some base ->
  Forall (fun p => p <> "" /\ p <> finalPath /\ is_Some (f !! p)) chunks ->
  copy_chunks flt fileName finalPath i chunks tot f =
    (inr (tot + Z.of_nat (length (concat (map (fun p => default [] (f !! p)) chunks)))),
     <[finalPath := base ++ concat (map (fun p => default [] (f !! p)) chunks)]> f).
Proof.
  intros Hflt. revert i tot f base.
  induction chunks as [|p rest IH]; intros i tot f base Hb Hall; simpl.
  - rewrite Z.add_0_r, app_nil_r, insert_id by exact Hb. reflexivity.
  - apply Forall_cons in Hall as [(Hp & Hpf & [d Hd]) Hrest].
    destruct (String.eqb_spec p "") as [|_]; [congruence|].
    rewrite Hd. rewrite decide_False by (rewrite Hflt; discriminate).
    rewrite Hb. simpl.
    set (f' := <[finalPath := base ++ d]> f).
    assert (Hf' : forall q, q <> finalPath -> f' !! q = f !! q).
    { intros q Hq. unfold f'. rewrite lookup_insert_ne by congruence. reflexivity. }
    assert (Hrest' : Forall (fun p => p <> "" /\ p <> finalPath /\ is_Some (f' !! p)) rest).
    { eapply Forall_impl; [exact Hrest|]. intros q (H1 & H2 & H3).
      rewrite Hf' by exact H2. auto. }
    rewrite (IH (S i) _ f' (base ++ d)); [| unfold f'; apply lookup_insert_eq | exact Hrest'].
    assert (Hmap : map (fun q => default [] (f' !! q)) rest =
                   map (fun q => default [] (f !! q)) rest).
    { apply map_ext_in. intros q Hq. rewrite Forall_forall in Hrest.
      destruct (Hrest q (proj2 (list_elem_of_In _ _) Hq)) as (_ & H2 & _). rewrite Hf' by exact H2. reflexivity. }
    rewrite Hmap. unfold f'. rewrite insert_insert_eq, <- app_assoc, length_app.
    f_equal. f_equal. lia.
Qed.

(** The bytes the assembler reads for a list of chunk paths. *)
Lemma stitchFile_copied (cfg : Config) (flt : Faults) fileName sz (st : State) :
  mkdir_uploads_fails flt = false -> create_final_fails flt = false ->
  copy_final_fails flt = None ->
  let fp := finalPathOf cfg fileName in
  let chunks := GetChunks (fm st) fileName in
  Forall (fun p => p <> "" /\ p <> fp /\ is_Some (fs st !! p)) chunks ->
  let data := concat (map (fun p => default [] (fs st !! p)) chunks) in
  stitchFile cfg flt fileName sz st =
    if decide (Z.of_nat (length data) <> sz) then
      (inl (ESizeMismatch sz (Z.of_nat (length data))),
       with_fs st (delete fp (<[fp := data]> (fs st))))
    else (inr fp, with_fs st (<[fp := data]> (fs st))).
Proof.
  intros H1 H2 H3 fp chunks Hall data. unfold stitchFile.
  rewrite H1, H2. fold fp chunks.
  set (f0 := <[fp := []]> (fs st)).
  assert (Hf0 : forall q, q <> fp -> f0 !! q = fs st !! q).
  { intros q Hq. unfold f0. rewrite lookup_insert_ne by congruence. reflexivity. }
  assert (Hall0 : Forall (fun p => p <> "" /\ p <> fp /\ is_Some (f0 !! p)) chunks).
  { eapply Forall_impl; [exact Hall|]. intros q (A & B & C). rewrite Hf0 by exact B. auto. }
  rewrite (copy_chunks_ok flt fileName fp 0 chunks 0 f0 []); [| exact H3 |
    unfold f0; apply lookup_insert_eq | exact Hall0].
  assert (Hmap : map (fun q => default [] (f0 !! q)) chunks =
                 map (fun q => default [] (fs st !! q)) chunks).
  { apply map_ext_in. intros q Hq. rewrite Forall_forall in Hall.
    destruct (Hall q (proj2 (list_elem_of_In _ _) Hq)) as (_ & B & _).
    rewrite Hf0 by exact B. reflexivity. }
  rewrite Hmap. fold data. unfold f0. rewrite insert_insert_eq. simpl.
  reflexivity.
Qed.

Lemma legacy_stitchFile_copied (flt : Faults) guid fileName sz (st : State) :
  mkdir_uploads_fails flt = false -> create_final_fails flt = false ->
  copy_final_fails flt = None ->
  let fp := Join "./uploads" (sapp guid (Ext fileName)) in
  let chunks := GetChunks (fm st) fileName in
  Forall (fun p => p <> "" /\ p <> fp /\ is_Some (fs st !! p)) chunks ->
  let data := concat (map (fun p => default [] (fs st !! p)) chunks) in
  Z.of_nat (length data) <> sz ->
  legacy_stitchFile flt guid fileName sz st =
    (inl (ESizeMismatch sz (Z.of_nat (length data))),
     with_fs st (delete fp (<[fp := data]> (fs st)))).
Proof.
  intros H1 H2 H3 fp chunks Hall data Hne. unfold legacy_stitchFile.
  rewrite H1, H2. fold fp chunks.
  set (f0 := <[fp := []]> (fs st)).
  assert (Hf0 : forall q, q <> fp -> f0 !! q = fs st !! q).
  { intros q Hq. unfold f0. rewrite lookup_insert_ne by congruence. reflexivity. }
  assert (Hall0 : Forall (fun p => p <> "" /\ p <> fp /\ is_Some (f0 !! p)) chunks).
  { eapply Forall_impl; [exact Hall|]. intros q (A & B & C). rewrite Hf0 by exact B. auto. }
  rewrite (copy_chunks_ok flt fileName fp 0 chunks 0 f0 []); [| exact H3 |
    unfold f0; apply lookup_insert_eq | exact Hall0].
  assert (Hmap : map (fun q => default [] (f0 !! q)) chunks =
                 map (fun q => default [] (fs st !! q)) chunks).
  { apply map_ext_in. intros q Hq. rewrite Forall_forall in Hall.
    destruct (Hall q (proj2 (list_elem_of_In _ _) Hq)) as (_ & B & _).
    rewrite Hf0 by exact B. reflexivity. }
  rewrite Hmap. fold data. unfold f0. rewrite insert_insert_eq. simpl.
  rewrite decide_True by exact Hne. reflexivity.
Qed.

(* ------------------------------------------------------------------ *)
(** ** C5: a size mismatch leaves no final file *)

(** C5. When every slot of the entry names a chunk file on disk (none of
    them the final file) and the chunk bytes total [got <> expectedSize],
    both assemblers (the uploader's and the one of lib.go) fail with
    [ESizeMismatch expectedSize got] and leave no file at the final path;
    the index is untouched. *)
Theorem stitch_size_mismatch (cfg : Config) (flt : Faults) (guid fileName : string)
    (expectedSize : Z) (st : State) :
  mkdir_uploads_fails flt = false -> create_final_fails flt = false ->
  copy_final_fails flt = None ->
  let fp := finalPathOf cfg fileName in
  let fp_legacy := Join "./uploads" (sapp guid (Ext fileName)) in
  let chunks := GetChunks (fm st) fileName in
  Forall (fun p => p <> "" /\ p <> fp /\ p <> fp_legacy /\ is_Some (fs st !! p)) chunks ->
  let got := Z.of_nat (length (concat (map (fun p => default [] (fs st !! p)) chunks))) in
  got <> expectedSize ->
  (exists st', stitchFile cfg flt fileName expectedSize st =
                 (inl (ESizeMismatch expectedSize got), st') /\
               fs st' !! fp = None /\ fm st' = fm st) /\
  (exists st', legacy_stitchFile flt guid fileName expectedSize st =
                 (inl (ESizeMismatch expectedSize got), st') /\
               fs st' !! fp_legacy = None /\ fm st' = fm st).
Proof.
  intros H1 H2 H3 fp fpl chunks Hall got Hne. split.
  - rewrite (stitchFile_copied cfg flt fileName expectedSize st H1 H2 H3).
    + fold fp chunks. rewrite decide_True by exact Hne.
      eexists. split; [reflexivity|]. simpl. split; [apply lookup_delete_eq | reflexivity].
    + eapply Forall_impl; [exact Hall|]. simpl. tauto.
  - rewrite (legacy_stitchFile_copied flt guid fileName expectedSize st H1 H2 H3).
    + eexists. split; [reflexivity|]. simpl. split; [apply lookup_delete_eq | reflexivity].
    + eapply Forall_impl; [exact Hall|]. simpl. tauto.
    + exact Hne.
Qed.

Lemma stitch_size_mismatch_witness :
  let st := {| fm := {[ "a.bin" := ["temp_chunks/a.bin_chunk_0"] ]};
               fs := {[ "temp_chunks/a.bin_chunk_0" := bytes "Hello" ]} |} in
  (exists st', stitchFile DefaultConfig NoFaults "a.bin" 13 st =
                 (inl (ESizeMismatch 13 5), st') /\
               fs st' !! "uploads/a.bin" = None /\ fm st' = fm st) /\
  (exists st', legacy_stitchFile NoFaults "0d4f" "a.bin" 13 st =
                 (inl (ESizeMismatch 13 5), st') /\
               fs st' !! "uploads/0d4f.bin" = None /\ fm st' = fm st).
Proof.
  intros st.
  apply (stitch_size_mismatch DefaultConfig NoFaults "0d4f" "a.bin" 13 st);
    [reflexivity | reflexivity | reflexivity | | vm_compute; discriminate].
  vm_compute. repeat constructor; try discriminate; eexists; reflexivity.
Defined.

(* ------------------------------------------------------------------ *)
(** ** C10: where the final file goes *)

Lemma stitchFile_path (cfg : Config) flt fileName sz st p st' :
  stitchFile cfg flt fileName sz st = (inr p, st') -> p = Join (UploadsDir cfg) fileName.
Proof.
  unfold stitchFile. intros H.
  repeat (case_match; simplify_eq/=; try done).
Qed.

Lemma processChunk_complete_path (cfg : Config) flt info b st fn p sz st' :
  processChunk cfg flt info b st = (ROk (Complete fn p sz), st') ->
  p = Join (UploadsDir cfg) (FileName info).
Proof.
  unfold processChunk. intros H.
  repeat (case_match; simplify_eq/=; try done).
  all: eapply stitchFile_path; eassumption.
Qed.

(** C10. A successful assembly of the uploader writes to
    [filepath.Join(UploadsDir, fileName)], the caller's name itself, so two
    completed uploads with the same name end at the same path; the
    assembler of lib.go stores the file as [guid + filepath.Ext(fileName)]
    under [./uploads], keeping only the extension of the name. *)
Theorem final_path_naming (cfg : Config) :
  (forall flt info b st fn p sz st',
     processChunk cfg flt info b st = (ROk (Complete fn p sz), st') ->
     p = Join (UploadsDir cfg) (FileName info)) /\
  (forall flt1 flt2 info1 info2 b1 b2 st1 st2 fn1 fn2 p1 p2 sz1 sz2 st1' st2',
     processChunk cfg flt1 info1 b1 st1 = (ROk (Complete fn1 p1 sz1), st1') ->
     processChunk cfg flt2 info2 b2 st2 = (ROk (Complete fn2 p2 sz2), st2') ->
     FileName info1 = FileName info2 -> p1 = p2) /\
  (forall flt guid fileName sz st md st',
     legacy_stitchFile flt guid fileName sz st = (inr md, st') ->
     MStoredName md = sapp guid (Ext fileName) /\
     MPath md = Join "./uploads" (sapp guid (Ext fileName)) /\
     MOriginalName md = fileName).
Proof.
  split; [|split].
  - apply processChunk_complete_path.
  - intros * H1 H2 Hn.
    rewrite (processChunk_complete_path _ _ _ _ _ _ _ _ _ H1),
            (processChunk_complete_path _ _ _ _ _ _ _ _ _ H2), Hn.
    reflexivity.
  - intros flt guid fileName sz st md st'. unfold legacy_stitchFile. intros H.
    repeat (case_match; simplify_eq/=; try done).
Qed.

Lemma final_path_naming_witness :
  "uploads/a.bin" = Join (UploadsDir DefaultConfig) "a.bin" /\
  "uploads/a.bin" = "uploads/a.bin" /\
  (MStoredName {| MStatus := "complete"; MOriginalName := "a.bin";
                  MStoredName := "0d4f.bin"; MFileSize := 5;
                  MMimeType := "application/octet-stream"; MPath := "uploads/0d4f.bin" |}
     = sapp "0d4f" (Ext "a.bin") /\
   MPath {| MStatus := "complete"; MOriginalName := "a.bin";
            MStoredName := "0d4f.bin"; MFileSize := 5;
            MMimeType := "application/octet-stream"; MPath := "uploads/0d4f.bin" |}
     = Join "./uploads" (sapp "0d4f" (Ext "a.bin")) /\
   MOriginalName {| MStatus := "complete"; MOriginalName := "a.bin";
                    MStoredName := "0d4f.bin"; MFileSize := 5;
                    MMimeType := "application/octet-stream"; MPath := "uploads/0d4f.bin" |}
     = "a.bin").
Proof.
  split; [|split].
  - apply (proj1 (final_path_naming DefaultConfig) NoFaults (mkInfo "a.bin" 0 1 5)
             (bytes "Hello") emptyState "a.bin" "uploads/a.bin" 5
             (snd (processChunk DefaultConfig NoFaults (mkInfo "a.bin" 0 1 5)
                     (bytes "Hello") emptyState))).
    vm_compute. reflexivity.
  - apply (proj1 (proj2 (final_path_naming DefaultConfig))
             NoFaults NoFaults (mkInfo "a.bin" 0 1 5) (mkInfo "a.bin" 1 2 11)
             (bytes "Hello") (bytes " World") emptyState
             {| fm := {[ "a.bin" := ["temp_chunks/a.bin_chunk_0"; ""] ]};
                fs := {[ "temp_chunks/a.bin_chunk_0" := bytes "Hello" ]} |}
             "a.bin" "a.bin" "uploads/a.bin" "uploads/a.bin" 5 11
             (snd (processChunk DefaultConfig NoFaults (mkInfo "a.bin" 0 1 5)
                     (bytes "Hello") emptyState))
             (snd (processChunk DefaultConfig NoFaults (mkInfo "a.bin" 1 2 11)
                     (bytes " World")
                     {| fm := {[ "a.bin" := ["temp_chunks/a.bin_chunk_0"; ""] ]};
                        fs := {[ "temp_chunks/a.bin_chunk_0" := bytes "Hello" ]} |})));
      vm_compute; reflexivity.
  - apply (proj2 (proj2 (final_path_naming DefaultConfig)) NoFaults "0d4f" "a.bin" 5
             {| fm := {[ "a.bin" := ["temp_chunks/a.bin_chunk_0"] ]};
                fs := {[ "temp_chunks/a.bin_chunk_0" := bytes "Hello" ]} |}
             _
             (snd (legacy_stitchFile NoFaults "0d4f" "a.bin" 5
                     {| fm := {[ "a.bin" := ["temp_chunks/a.bin_chunk_0"] ]};
                        fs := {[ "temp_chunks/a.bin_chunk_0" := bytes "Hello" ]} |}))).
    vm_compute. reflexivity.
Defined.

(* ------------------------------------------------------------------ *)
(** ** C7: a failed request leaves the index as it was *)

Lemma with_fs_twice (st : State) a b : with_fs (with_fs st a) b = with_fs st b.
Proof. reflexivity. Qed.

(** Retrying a chunk without faults over a partially written chunk file
    runs exactly as on the state before the failed attempt. *)
Lemma processChunk_retry (cfg : Config) info b (st : State) x :
  processChunk cfg NoFaults info b
    (with_fs st (<[chunkPathOf (TempDir cfg) (FileName info) (ChunkIndex info) := x]> (fs st))) =
  processChunk cfg NoFaults info b st.
Proof.
  destruct st as [m f]. unfold processChunk, saveChunk. simpl.
  rewrite insert_insert_eq. reflexivity.
Qed.

Lemma UploaderHelper_retry guid r info file (st : State) x :
  String.eqb (Method r) "POST" = true -> FormParses r = true ->
  extractChunkInfo r = inr info -> ChunkPart r = Some file ->
  UploaderHelper NoFaults guid r
    (with_fs st (<[chunkPathOf "./temp_chunks" (FileName info) (ChunkIndex info) := x]> (fs st))) =
  UploaderHelper NoFaults guid r st.
Proof.
  intros Hm Hp He Hc. destruct st as [m f].
  unfold UploaderHelper, saveChunk, with_fs, with_fm.
  rewrite Hm, Hp, He, Hc. simpl. rewrite insert_insert_eq. reflexivity.
Qed.

(** C7. A request that fails for any reason other than the assembly
    (method, form parsing, field validation, missing file part, chunk
    directory, chunk file creation or copy) leaves the index exactly as it
    was; retrying the same request without faults then runs exactly as if
    the failed attempt had never happened.  This holds for the uploader's
    [HandleUpload] and for [UploaderHelper] of lib.go. *)
Theorem failed_request_keeps_index (cfg : Config) (flt : Faults) (r : Request)
    (st : State) (e : UploadError) :
  (forall se, e <> EStitching se) ->
  (forall st', HandleUpload cfg flt r st = (RErr e, st') ->
     fm st' = fm st /\
     HandleUpload cfg NoFaults r st' = HandleUpload cfg NoFaults r st) /\
  (forall guid st', UploaderHelper flt guid r st = (RErr e, st') ->
     fm st' = fm st /\
     forall guid', UploaderHelper NoFaults guid' r st' = UploaderHelper NoFaults guid' r st).
Proof.
  intros He. split.
  - intros st' H. unfold HandleUpload in H.
    destruct (negb (String.eqb (Method r) "POST")) eqn:Em;
      [injection H as <- <-; auto|].
    destruct (negb (FormParses r)) eqn:Ep; [injection H as <- <-; auto|].
    destruct (extractChunkInfo r) as [e'|info] eqn:Ex; [injection H as <- <-; auto|].
    destruct (ChunkPart r) as [file|] eqn:Ec; [|injection H as <- <-; auto].
    unfold processChunk in H.
    destruct (mkdir_temp_fails flt); [injection H as <- <-; auto|].
    destruct (saveChunk flt _ file (fs st)) as [[e0|] f] eqn:Es.
    + injection H as <- <-. split; [reflexivity|].
      unfold saveChunk in Es.
      destruct (create_temp_fails flt); [injection Es as <- <-; destruct st; reflexivity|].
      destruct (copy_temp_fails flt) as [k|]; [|discriminate].
      injection Es as <- <-. unfold HandleUpload.
      rewrite Em, Ep, Ex, Ec. apply processChunk_retry.
    + exfalso. simpl in H.
      repeat (case_match; simplify_eq/=; try done).
      all: eapply He; reflexivity.
  - intros guid st' H. unfold UploaderHelper in H.
    destruct (negb (String.eqb (Method r) "POST")) eqn:Em;
      [injection H as <- <-; auto|].
    destruct (negb (FormParses r)) eqn:Ep; [injection H as <- <-; auto|].
    destruct (extractChunkInfo r) as [e'|info] eqn:Ex; [injection H as <- <-; auto|].
    destruct (ChunkPart r) as [file|] eqn:Ec; [|injection H as <- <-; auto].
    destruct (mkdir_temp_fails flt); [injection H as <- <-; auto|].
    destruct (saveChunk flt _ file (fs st)) as [[e0|] f] eqn:Es.
    + injection H as <- <-. split; [reflexivity|]. intros guid'.
      unfold saveChunk in Es.
      destruct (create_temp_fails flt); [injection Es as <- <-; destruct st; reflexivity|].
      destruct (copy_temp_fails flt) as [k|]; [|discriminate].
      injection Es as <- <-. apply (UploaderHelper_retry guid' r info file st);
        [apply negb_false_iff; exact Em | apply negb_false_iff; exact Ep | exact Ex | exact Ec].
    + exfalso. simpl in H.
      repeat (case_match; simplify_eq/=; try done).
      all: eapply He; reflexivity.
Qed.

Lemma failed_request_keeps_index_witness :
  HandleUpload DefaultConfig copy_fault sample_request sample_state =
    (RErr ESaveChunk, snd (HandleUpload DefaultConfig copy_fault sample_request sample_state)) /\
  fm (snd (HandleUpload DefaultConfig copy_fault sample_request sample_state)) = fm sample_state /\
  HandleUpload DefaultConfig NoFaults sample_request
    (snd (HandleUpload DefaultConfig copy_fault sample_request sample_state)) =
  HandleUpload DefaultConfig NoFaults sample_request sample_state /\
  fm (snd (UploaderHelper copy_fault "0d4f" sample_request sample_state)) = fm sample_state.
Proof.
  assert (He : forall se, ESaveChunk <> EStitching se) by (intros se; discriminate).
  split; [vm_compute; reflexivity|].
  split; [|split].
  - apply (proj1 (failed_request_keeps_index DefaultConfig copy_fault sample_request
                    sample_state ESaveChunk He)).
    vm_compute. reflexivity.
  - apply (proj1 (failed_request_keeps_index DefaultConfig copy_fault sample_request
                    sample_state ESaveChunk He)).
    vm_compute. reflexivity.
  - apply (proj2 (failed_request_keeps_index DefaultConfig copy_fault sample_request
                    sample_state ESaveChunk He) "0d4f").
    vm_compute. reflexivity.
Defined.

(* ------------------------------------------------------------------ *)
(** ** Lemmas on whole uploads *)

Lemma map_is_fmap {A B} (g : A -> B) (l : list A) : map g l = g <$> l.
Proof. induction l as [|x l IH]; simpl; [reflexivity|]. rewrite IH. reflexivity. Qed.

Lemma Clean_nonempty p : Clean p <> "".
Proof.
  unfold Clean. destruct (match p with String "/" _ => true | _ => false end).
  - unfold sapp. simpl. discriminate.
  - destruct (String.eqb_spec (join_with "/" (rev (fold_left (clean_step false)
      (split_on "/" p) []))) ""); [discriminate | assumption].
Qed.

Lemma Join_nonempty a b : b <> "" -> Join a b <> "".
Proof.
  intros Hb. unfold Join.
  destruct (String.eqb_spec a ""); destruct (String.eqb_spec b ""); try congruence;
    apply Clean_nonempty.
Qed.

Lemma chunkPathOf_nonempty dir fileName i : chunkPathOf dir fileName i <> "".
Proof.
  apply Join_nonempty. unfold sapp. destruct fileName; simpl; discriminate.
Qed.

Lemma last_payload_snoc j l i b :
  last_payload j (l ++ [(i, b)]) = if Z.eqb i j then b else last_payload j l.
Proof. unfold last_payload. rewrite fold_left_app. reflexivity. Qed.

Lemma slots_of_nil cfg fileName n : slots_of cfg fileName n [] = replicate n "".
Proof.
  unfold slots_of. apply list_eq. intros k. rewrite list_lookup_fmap.
  destruct (decide (k < n)%nat).
  - rewrite lookup_seq_lt by lia. rewrite lookup_replicate_2 by lia. simpl.
    reflexivity.
  - rewrite lookup_seq_ge by lia. rewrite (proj1 (lookup_replicate_None _ _ _)) by lia. reflexivity.
Qed.

Lemma length_slots_of cfg fileName n l : length (slots_of cfg fileName n l) = n.
Proof. unfold slots_of. rewrite length_fmap. apply length_seq. Qed.

Lemma slots_of_snoc cfg fileName n l i b :
  0 <= i < Z.of_nat n ->
  <[Z.to_nat i := chunkPathOf (TempDir cfg) fileName i]> (slots_of cfg fileName n l) =
  slots_of cfg fileName n (l ++ [(i, b)]).
Proof.
  intros Hi. unfold slots_of. apply list_eq. intros k.
  rewrite list_lookup_insert, length_fmap, length_seq, !list_lookup_fmap.
  destruct (decide (k < n)%nat) as [Hk|Hk].
  - rewrite lookup_seq_lt by lia. simpl.
    rewrite map_app. simpl.
    destruct (decide (Z.to_nat i = k)) as [<-|Hne].
    + rewrite decide_True by lia. rewrite bool_decide_true.
      * rewrite Z2Nat.id by lia. reflexivity.
      * apply list_elem_of_In. apply in_or_app. right. simpl. left. lia.
    + destruct (decide (Z.to_nat i < n)%nat); [|lia].
      case_decide; [lia|].
      assert (Hiff : Z.of_nat k ∈ map fst l ++ [i] <-> Z.of_nat k ∈ map fst l).
      { rewrite elem_of_app, list_elem_of_singleton. split; [|auto].
        intros [Hx|Hx]; [exact Hx|lia]. }
      rewrite (bool_decide_ext _ _ Hiff). reflexivity.
  - rewrite lookup_seq_ge by lia. case_decide; [lia | reflexivity].
Qed.

Lemma forallb_fmap {A B} (p : B -> bool) (g : A -> B) (l : list A) :
  forallb p (g <$> l) = forallb (fun x => p (g x)) l.
Proof. induction l as [|x l IH]; [reflexivity|]. rewrite fmap_cons. cbn [forallb]. rewrite IH. reflexivity. Qed.

Lemma forallb_ext' {A} (p q : A -> bool) (l : list A) :
  (forall x, p x = q x) -> forallb p l = forallb q l.
Proof. intros H. induction l as [|x l IH]; simpl; [reflexivity|]. rewrite H, IH. reflexivity. Qed.

Lemma IsComplete_slots_of cfg fileName n l (m : gmap string (list string)) :
  m !! fileName = Some (slots_of cfg fileName n l) ->
  IsComplete m fileName = covers n l.
Proof.
  intros H. unfold IsComplete. rewrite H. unfold slots_of, covers.
  rewrite forallb_fmap. apply forallb_ext'. intros j.
  case_bool_decide; simpl; [|reflexivity].
  destruct (String.eqb_spec (chunkPathOf (TempDir cfg) fileName (Z.of_nat j)) "") as [E|_].
  - exfalso. exact (chunkPathOf_nonempty _ _ _ E).
  - reflexivity.
Qed.

Lemma covers_app n l r : covers n l = true -> covers n (l ++ r) = true.
Proof.
  unfold covers. rewrite !forallb_forall. intros H j Hj.
  specialize (H j Hj). apply bool_decide_eq_true in H. apply bool_decide_eq_true.
  rewrite map_app. apply elem_of_app. left. exact H.
Qed.

Lemma map_seq_lookup {B} (g : nat -> B) n k :
  (k < n)%nat -> map g (seq 0 n) !! k = Some (g k).
Proof.
  intros Hk. rewrite map_is_fmap, list_lookup_fmap, lookup_seq_lt by exact Hk.
  reflexivity.
Qed.

Lemma distinct_paths_chunks cfg fileName n i j :
  distinct_paths cfg fileName n ->
  0 <= i < Z.of_nat n -> 0 <= j < Z.of_nat n ->
  chunkPathOf (TempDir cfg) fileName i = chunkPathOf (TempDir cfg) fileName j -> i = j.
Proof.
  intros Hd Hi Hj E. unfold distinct_paths in Hd. apply NoDup_cons in Hd as [_ Hd].
  set (g := fun k : nat => chunkPathOf (TempDir cfg) fileName (Z.of_nat k)).
  assert (Ei : map g (seq 0 n) !! Z.to_nat i = Some (chunkPathOf (TempDir cfg) fileName i)).
  { rewrite map_seq_lookup by lia. unfold g. rewrite Z2Nat.id by lia. reflexivity. }
  assert (Ej : map g (seq 0 n) !! Z.to_nat j = Some (chunkPathOf (TempDir cfg) fileName i)).
  { rewrite map_seq_lookup by lia. unfold g. rewrite Z2Nat.id by lia. congruence. }
  pose proof (NoDup_lookup _ _ _ _ Hd Ei Ej). lia.
Qed.

Lemma distinct_paths_final cfg fileName n i :
  distinct_paths cfg fileName n -> 0 <= i < Z.of_nat n ->
  chunkPathOf (TempDir cfg) fileName i <> finalPathOf cfg fileName.
Proof.
  intros Hd Hi E. unfold distinct_paths in Hd. apply NoDup_cons in Hd as [Hn _].
  apply Hn. rewrite <- E. apply list_elem_of_lookup. exists (Z.to_nat i).
  rewrite map_seq_lookup by lia. rewrite Z2Nat.id by lia. reflexivity.
Qed.

(** Saving a chunk and recording it, for a submission that keeps the
    upload going or completes it. *)
Lemma save_add cfg fileName n pre st i b :
  upload_inv cfg fileName n pre st -> distinct_paths cfg fileName n ->
  0 <= i < Z.of_nat n ->
  let cp := chunkPathOf (TempDir cfg) fileName i in
  AddChunk (fm st) fileName cp i (Z.of_nat n) =
    (Returned, <[fileName := slots_of cfg fileName n (pre ++ [(i, b)])]> (fm st)) /\
  upload_inv cfg fileName n (pre ++ [(i, b)])
    {| fm := <[fileName := slots_of cfg fileName n (pre ++ [(i, b)])]> (fm st);
       fs := <[cp := b]> (fs st) |}.
Proof.
  intros (Hm & Hr & Hf) Hd Hi cp. split.
  - destruct Hm as [[Hm ->]|Hm].
    + rewrite (AddChunk_fresh _ _ _ _ _ Hm) by lia. simpl.
      replace ((0 <=? i) && (i <? Z.of_nat n)) with true by lia.
      rewrite insert_insert_eq, Nat2Z.id, <- (slots_of_nil cfg fileName n).
      unfold cp. rewrite (slots_of_snoc cfg fileName n [] i b Hi). reflexivity.
    + rewrite (AddChunk_existing _ _ _ _ _ _ Hm), length_slots_of.
      replace ((0 <=? i) && (i <? Z.of_nat n)) with true by lia.
      unfold cp. rewrite (slots_of_snoc cfg fileName n pre i b Hi). reflexivity.
  - split; [|split]; simpl.
    + right. apply lookup_insert_eq.
    + rewrite map_app. apply Forall_app. split; [exact Hr|]. constructor; [exact Hi|constructor].
    + intros j Hj. rewrite map_app in Hj. apply elem_of_app in Hj.
      rewrite last_payload_snoc. destruct (Z.eqb_spec i j) as [<-|Hne].
      * apply lookup_insert_eq.
      * destruct Hj as [Hj|Hj]; [|simpl in Hj; apply list_elem_of_singleton in Hj; congruence].
        rewrite lookup_insert_ne; [exact (Hf j Hj)|].
        intros E. apply Hne. rewrite Forall_forall in Hr.
        apply (distinct_paths_chunks cfg fileName n); auto.
Qed.

Lemma slots_of_covered cfg fileName n l :
  covers n l = true ->
  slots_of cfg fileName n l =
    (fun j => chunkPathOf (TempDir cfg) fileName (Z.of_nat j)) <$> seq 0 n.
Proof.
  unfold covers, slots_of. rewrite forallb_forall. intros H.
  apply list_fmap_ext. intros k j Hk.
  assert (Hj : In j (seq 0 n)).
  { apply list_elem_of_In. apply list_elem_of_lookup. eauto. }
  specialize (H j Hj). rewrite H. reflexivity.
Qed.

Lemma cleanup_fold_keeps (l : list string) (f0 : gmap string (list Byte.byte)) q :
  Forall (fun p => p <> q) l ->
  fold_left (fun f p => if String.eqb p "" then f else delete p f) l f0 !! q = f0 !! q.
Proof.
  revert f0. induction l as [|p l IH]; intros f0 Hl; simpl; [reflexivity|].
  apply Forall_cons in Hl as [Hp Hl]. rewrite IH by exact Hl.
  destruct (String.eqb p ""); [reflexivity|]. apply lookup_delete_ne. congruence.
Qed.

Lemma cleanup_fold_removes (l : list string) (f0 : gmap string (list Byte.byte)) q :
  q ∈ l -> q <> "" ->
  fold_left (fun f p => if String.eqb p "" then f else delete p f) l f0 !! q = None.
Proof.
  intros Hq Hne.
  assert (Gen : forall l (f0 : gmap string (list Byte.byte)), f0 !! q = None ->
            fold_left (fun f p => if String.eqb p "" then f else delete p f) l f0 !! q = None).
  { clear Hq Hne. intros l0. induction l0 as [|p l0 IH]; intros f1 H; simpl; [exact H|].
    apply IH. destruct (String.eqb p ""); [exact H|].
    rewrite lookup_delete. case_decide; [reflexivity|exact H]. }
  revert f0. induction l as [|p l IH]; intros f0; [apply not_elem_of_nil in Hq; done|].
  simpl. apply elem_of_cons in Hq as [Eq|Hq].
  - subst p. apply Gen. destruct (String.eqb_spec q ""); [congruence|]. apply lookup_delete_eq.
  - apply IH. exact Hq.
Qed.

(** A submission that does not complete the upload. *)
Lemma step_receive cfg fileName n sz pre st i b :
  upload_inv cfg fileName n pre st -> distinct_paths cfg fileName n ->
  0 <= i < Z.of_nat n -> covers n (pre ++ [(i, b)]) = false ->
  exists st',
    processChunk cfg NoFaults (mkInfo fileName i (Z.of_nat n) sz) b st =
      (ROk (ChunkReceived fileName i (Z.of_nat n)), st') /\
    upload_inv cfg fileName n (pre ++ [(i, b)]) st'.
Proof.
  intros Hinv Hd Hi Hc.
  destruct (save_add cfg fileName n pre st i b Hinv Hd Hi) as [HA Hinv'].
  unfold processChunk. simpl. rewrite HA. simpl.
  rewrite (IsComplete_slots_of cfg fileName n (pre ++ [(i, b)])) by apply lookup_insert_eq.
  rewrite Hc. eexists. split; [reflexivity|]. exact Hinv'.
Qed.

(** The submission that completes the upload. *)
Lemma step_complete cfg fileName n sz pre st i b :
  upload_inv cfg fileName n pre st -> distinct_paths cfg fileName n ->
  0 <= i < Z.of_nat n -> covers n (pre ++ [(i, b)]) = true ->
  sz = Z.of_nat (length (in_index_order (fun j => last_payload j (pre ++ [(i, b)])) n)) ->
  exists st',
    processChunk cfg NoFaults (mkInfo fileName i (Z.of_nat n) sz) b st =
      (ROk (Complete fileName (finalPathOf cfg fileName) sz), st') /\
    fs st' !! finalPathOf cfg fileName =
      Some (in_index_order (fun j => last_payload j (pre ++ [(i, b)])) n).
Proof.
  intros Hinv Hd Hi Hc Hsz.
  destruct (save_add cfg fileName n pre st i b Hinv Hd Hi) as [HA Hinv'].
  set (l' := pre ++ [(i, b)]) in *.
  set (st2 := {| fm := <[fileName := slots_of cfg fileName n l']> (fm st);
                 fs := <[chunkPathOf (TempDir cfg) fileName i := b]> (fs st) |}) in *.
  destruct Hinv' as (_ & _ & Hf2).
  assert (Hch : GetChunks (fm st2) fileName =
                (fun j => chunkPathOf (TempDir cfg) fileName (Z.of_nat j)) <$> seq 0 n).
  { unfold GetChunks. simpl. rewrite lookup_insert_eq. apply slots_of_covered. exact Hc. }
  assert (Hin : forall j, (j < n)%nat -> Z.of_nat j ∈ map fst l').
  { intros j Hj. unfold covers in Hc. rewrite forallb_forall in Hc.
    assert (Hs : In j (seq 0 n)) by (apply in_seq; lia).
    specialize (Hc j Hs). apply bool_decide_eq_true in Hc. exact Hc. }
  assert (Hall : Forall (fun p => p <> "" /\ p <> finalPathOf cfg fileName /\
                                  is_Some (fs st2 !! p)) (GetChunks (fm st2) fileName)).
  { rewrite Hch. apply Forall_fmap. apply Forall_seq. intros j Hj. cbv beta.
    split; [apply chunkPathOf_nonempty|]. split.
    - apply (distinct_paths_final cfg fileName n). exact Hd. lia.
    - rewrite (Hf2 _ (Hin j ltac:(lia))). eexists; reflexivity. }
  assert (Hdata : concat (map (fun p => default [] (fs st2 !! p)) (GetChunks (fm st2) fileName)) =
                  in_index_order (fun j => last_payload j l') n).
  { rewrite Hch. unfold in_index_order. rewrite !map_is_fmap, <- list_fmap_compose.
    f_equal. apply list_fmap_ext. intros k j Hk. unfold compose. cbv beta.
    apply lookup_seq in Hk as [-> Hk]. rewrite Nat.add_0_l.
    rewrite (Hf2 _ (Hin k ltac:(lia))). reflexivity. }
  pose proof (stitchFile_copied cfg NoFaults fileName sz st2 eq_refl eq_refl eq_refl Hall) as Hst.
  cbv zeta in Hst. rewrite Hdata in Hst. rewrite <- Hsz in Hst.
  rewrite decide_False in Hst by lia.
  unfold processChunk. simpl. rewrite HA. simpl.
  rewrite (IsComplete_slots_of cfg fileName n l') by apply lookup_insert_eq.
  rewrite Hc. change (stitchFile cfg NoFaults fileName sz (with_fm _ _)) with (stitchFile cfg NoFaults fileName sz st2). rewrite Hst.
  destruct (AutoCleanup cfg); eexists; (split; [reflexivity|]); simpl.
  - unfold cleanupChunks. simpl. unfold GetChunks. simpl. rewrite lookup_insert_eq.
    rewrite slots_of_covered by exact Hc.
    rewrite cleanup_fold_keeps; [apply lookup_insert_eq|].
    apply Forall_fmap. apply Forall_seq. intros j Hj. simpl.
    apply (distinct_paths_final cfg fileName n). exact Hd. lia.
  - apply lookup_insert_eq.
Qed.

Lemma submit_seq_app cfg fileName n sz l1 l2 st :
  submit_seq cfg fileName n sz (l1 ++ l2) st =
    let '(os1, st1) := submit_seq cfg fileName n sz l1 st in
    let '(os2, st2) := submit_seq cfg fileName n sz l2 st1 in
    (os1 ++ os2, st2).
Proof.
  revert st. induction l1 as [|[i b] l1 IH]; intros st; simpl.
  - destruct (submit_seq cfg fileName n sz l2 st). reflexivity.
  - destruct (processChunk _ _ _ _ _) as [o st1].
    rewrite IH. destruct (submit_seq cfg fileName n sz l1 st1) as [os1 st2].
    destruct (submit_seq cfg fileName n sz l2 st2) as [os2 st3]. reflexivity.
Qed.

Lemma run_receive cfg fileName n sz rest :
  forall pre st,
  upload_inv cfg fileName n pre st -> distinct_paths cfg fileName n ->
  Forall (fun j => 0 <= j < Z.of_nat n) (map fst rest) ->
  covers n (pre ++ rest) = false ->
  exists st',
    submit_seq cfg fileName (Z.of_nat n) sz rest st =
      ((fun ib => ROk (ChunkReceived fileName ib.1 (Z.of_nat n))) <$> rest, st') /\
    upload_inv cfg fileName n (pre ++ rest) st'.
Proof.
  induction rest as [|[i b] rest IH]; intros pre st Hinv Hd Hr Hc.
  - exists st. rewrite app_nil_r. split; [reflexivity | exact Hinv].
  - simpl in Hr. apply Forall_cons in Hr as [Hi Hr].
    assert (Hc1 : covers n (pre ++ [(i, b)]) = false).
    { destruct (covers n (pre ++ [(i, b)])) eqn:E; [|reflexivity].
      rewrite <- Hc. replace (pre ++ (i, b) :: rest) with ((pre ++ [(i, b)]) ++ rest)
        by (rewrite <- app_assoc; reflexivity).
      symmetry. apply covers_app. exact E. }
    destruct (step_receive cfg fileName n sz pre st i b Hinv Hd Hi Hc1) as (st1 & E1 & Hinv1).
    replace (pre ++ (i, b) :: rest) with ((pre ++ [(i, b)]) ++ rest) in Hc
      by (rewrite <- app_assoc; reflexivity).
    destruct (IH _ _ Hinv1 Hd Hr Hc) as (st2 & E2 & Hinv2).
    exists st2. simpl. rewrite E1, E2. split; [reflexivity|].
    rewrite <- app_assoc in Hinv2. exact Hinv2.
Qed.

(** A whole upload whose set of indices is first complete at its last
    submission, duplicates allowed. *)
Lemma run_upload cfg fileName (n : nat) sz pre i b st :
  fm st !! fileName = None -> distinct_paths cfg fileName n ->
  Forall (fun j => 0 <= j < Z.of_nat n) (map fst (pre ++ [(i, b)])) ->
  covers n pre = false -> covers n (pre ++ [(i, b)]) = true ->
  sz = Z.of_nat (length (in_index_order (fun j => last_payload j (pre ++ [(i, b)])) n)) ->
  exists st',
    submit_seq cfg fileName (Z.of_nat n) sz (pre ++ [(i, b)]) st =
      (((fun ib => ROk (ChunkReceived fileName ib.1 (Z.of_nat n))) <$> pre) ++
         [ROk (Complete fileName (finalPathOf cfg fileName) sz)], st') /\
    fs st' !! finalPathOf cfg fileName =
      Some (in_index_order (fun j => last_payload j (pre ++ [(i, b)])) n).
Proof.
  intros Hnone Hd Hr Hc0 Hc Hsz.
  rewrite map_app, Forall_app in Hr. destruct Hr as [Hr Hi].
  simpl in Hi. apply Forall_cons in Hi as [Hi _].
  assert (Hinv0 : upload_inv cfg fileName n [] st).
  { split; [left; auto|]. split; [constructor|]. intros j Hj. apply not_elem_of_nil in Hj. done. }
  destruct (run_receive cfg fileName n sz pre [] st Hinv0 Hd Hr Hc0) as (st1 & E1 & Hinv1).
  simpl in Hinv1.
  destruct (step_complete cfg fileName n sz pre st1 i b Hinv1 Hd Hi Hc Hsz) as (st2 & E2 & Hf).
  exists st2. rewrite submit_seq_app, E1. simpl. rewrite E2. split; [reflexivity | exact Hf].
Qed.

(* ------------------------------------------------------------------ *)
(** ** C8: a duplicate submission overwrites *)

(** C8. Resubmitting an index that is already recorded (and does not
    complete the upload) leaves the entry exactly as it was, one path per
    index, and overwrites the bytes of that chunk file; over a whole upload
    in which indices may be submitted several times, the final file holds
    for every index the payload of its last submission, each index once,
    in index order. *)
Theorem duplicate_overwrites (cfg : Config) :
  (forall (st : State) fileName (slots : list string) i t sz b,
     fm st !! fileName = Some slots ->
     slots !! Z.to_nat i = Some (chunkPathOf (TempDir cfg) fileName i) -> 0 <= i ->
     IsComplete (fm st) fileName = false ->
     processChunk cfg NoFaults (mkInfo fileName i t sz) b st =
       (ROk (ChunkReceived fileName i t),
        {| fm := fm st;
           fs := <[chunkPathOf (TempDir cfg) fileName i := b]> (fs st) |})) /\
  (forall fileName (n : nat) sz pre i b st,
     fm st !! fileName = None -> distinct_paths cfg fileName n ->
     Forall (fun j => 0 <= j < Z.of_nat n) (map fst (pre ++ [(i, b)])) ->
     covers n pre = false -> covers n (pre ++ [(i, b)]) = true ->
     sz = Z.of_nat (length (in_index_order (fun j => last_payload j (pre ++ [(i, b)])) n)) ->
     exists st',
       submit_seq cfg fileName (Z.of_nat n) sz (pre ++ [(i, b)]) st =
         (((fun ib => ROk (ChunkReceived fileName ib.1 (Z.of_nat n))) <$> pre) ++
            [ROk (Complete fileName (finalPathOf cfg fileName) sz)], st') /\
       fs st' !! finalPathOf cfg fileName =
         Some (in_index_order (fun j => last_payload j (pre ++ [(i, b)])) n)).
Proof.
  split.
  - intros st fileName slots i t sz b Hm Hs Hi Hc.
    unfold processChunk. simpl.
    rewrite (AddChunk_existing _ _ _ _ _ slots Hm).
    pose proof (lookup_lt_Some _ _ _ Hs) as Hlt.
    replace ((0 <=? i) && (i <? Z.of_nat (length slots))) with true by lia.
    rewrite (list_insert_id _ _ _ Hs), (insert_id _ _ _ Hm).
    simpl. rewrite Hc. destruct st. reflexivity.
  - intros. apply run_upload; assumption.
Qed.

Lemma duplicate_overwrites_witness :
  processChunk DefaultConfig NoFaults (mkInfo "a.bin" 0 2 11) (bytes "Howdy") sample_state =
    (ROk (ChunkReceived "a.bin" 0 2),
     {| fm := fm sample_state;
        fs := <[chunkPathOf (TempDir DefaultConfig) "a.bin" 0 := bytes "Howdy"]>
                (fs sample_state) |}) /\
  exists st',
    submit_seq DefaultConfig "a.bin" (Z.of_nat 2) 11
      ([(0, bytes "Hxllo"); (0, bytes "Hello")] ++ [(1, bytes " World")]) emptyState =
      (((fun ib => ROk (ChunkReceived "a.bin" ib.1 (Z.of_nat 2))) <$>
          [(0, bytes "Hxllo"); (0, bytes "Hello")]) ++
         [ROk (Complete "a.bin" (finalPathOf DefaultConfig "a.bin") 11)], st') /\
    fs st' !! finalPathOf DefaultConfig "a.bin" =
      Some (in_index_order (fun j => last_payload j
              ([(0, bytes "Hxllo"); (0, bytes "Hello")] ++ [(1, bytes " World")])) 2).
Proof.
  split.
  - apply (proj1 (duplicate_overwrites DefaultConfig) sample_state "a.bin"
             ["temp_chunks/a.bin_chunk_0"; ""]); try reflexivity; lia.
  - apply (proj2 (duplicate_overwrites DefaultConfig)); try reflexivity.
    + apply (bool_decide_unpack _). vm_compute. exact I.
    + vm_compute. repeat constructor; discriminate.
Defined.

(* ------------------------------------------------------------------ *)
(** ** Submissions covering every index once *)

Lemma last_payload_fold_absent (j : Z) (l : list (Z * list Byte.byte)) acc :
  j ∉ map fst l ->
  fold_left (fun acc ib => if Z.eqb ib.1 j then ib.2 else acc) l acc = acc.
Proof.
  revert acc. induction l as [|[k c] l IH]; intros acc Hj; [reflexivity|].
  simpl in *. rewrite elem_of_cons in Hj.
  destruct (Z.eqb_spec k j); [subst; tauto|].
  apply IH. tauto.
Qed.

Lemma payload_at_absent (j : Z) (l : list (Z * list Byte.byte)) :
  j ∉ map fst l -> payload_at j l = [].
Proof.
  unfold payload_at. induction l as [|[k c] l IH]; intros Hj; [reflexivity|].
  simpl in *. rewrite elem_of_cons in Hj.
  destruct (Z.eqb_spec k j); [subst; tauto|].
  apply IH. tauto.
Qed.

Lemma last_payload_fold_present (j : Z) (l : list (Z * list Byte.byte)) acc :
  NoDup (map fst l) -> j ∈ map fst l ->
  fold_left (fun acc ib => if Z.eqb ib.1 j then ib.2 else acc) l acc = payload_at j l.
Proof.
  revert acc. induction l as [|[k c] l IH]; intros acc Hnd Hj.
  - apply not_elem_of_nil in Hj. contradiction.
  - simpl in Hnd, Hj. apply NoDup_cons in Hnd as [Hk Hnd].
    apply elem_of_cons in Hj.
    unfold payload_at. cbn [fold_left List.find fst snd].
    destruct (Z.eqb_spec k j).
    + subst. apply last_payload_fold_absent. exact Hk.
    + apply IH; [exact Hnd|]. destruct Hj; [congruence|assumption].
Qed.

Lemma last_payload_first (j : Z) (l : list (Z * list Byte.byte)) :
  NoDup (map fst l) -> last_payload j l = payload_at j l.
Proof.
  intros Hnd. unfold last_payload.
  destruct (decide (j ∈ map fst l)) as [Hj|Hj].
  - apply last_payload_fold_present; assumption.
  - rewrite last_payload_fold_absent, payload_at_absent; auto.
Qed.

Lemma payload_at_member (l : list (Z * list Byte.byte)) k c :
  NoDup (map fst l) -> (k, c) ∈ l -> payload_at k l = c.
Proof.
  unfold payload_at. induction l as [|[k' c'] l IH]; intros Hnd Hin.
  - apply not_elem_of_nil in Hin. contradiction.
  - simpl in Hnd. apply NoDup_cons in Hnd as [Hk Hnd].
    apply elem_of_cons in Hin as [Eq|Hin].
    + simplify_eq. cbn [List.find fst snd]. rewrite Z.eqb_refl. reflexivity.
    + cbn [List.find fst snd].
      destruct (Z.eqb_spec k' k).
      * subst k'. exfalso. apply Hk.
        apply list_elem_of_In. apply in_map_iff. exists (k, c).
        split; [reflexivity|]. apply list_elem_of_In. exact Hin.
      * apply IH; assumption.
Qed.

Lemma map_snd_payload_at (l : list (Z * list Byte.byte)) :
  NoDup (map fst l) -> map snd l = map (fun k => payload_at k l) (map fst l).
Proof.
  intros Hnd. rewrite map_map. apply map_ext_in. intros [k c] Hin.
  symmetry. apply payload_at_member; [exact Hnd|]. apply list_elem_of_In. exact Hin.
Qed.

Lemma length_concat_perm (l1 l2 : list (list Byte.byte)) :
  Permutation l1 l2 -> length (concat l1) = length (concat l2).
Proof.
  induction 1; simpl; rewrite ?length_app; lia.
Qed.

Lemma covers_elem (n : nat) (l : list (Z * list Byte.byte)) k :
  covers n l = true -> (k < n)%nat -> Z.of_nat k ∈ map fst l.
Proof.
  unfold covers. intros Hc Hk. rewrite forallb_forall in Hc.
  apply (bool_decide_eq_true_1 _). apply Hc. apply in_seq. lia.
Qed.

Lemma perm_index_range (l : list (Z * list Byte.byte)) (n : nat) j :
  Permutation (map fst l) (map Z.of_nat (seq 0 n)) ->
  j ∈ map fst l <-> exists k, j = Z.of_nat k /\ (k < n)%nat.
Proof.
  intros Hp. rewrite Hp, list_elem_of_In, in_map_iff.
  split.
  - intros (k & <- & Hk). apply in_seq in Hk. exists k. split; [reflexivity|lia].
  - intros (k & -> & Hk). exists k. split; [reflexivity|]. apply in_seq. lia.
Qed.

(** C1. For [n >= 1] and submissions of one upload whose indices are
    exactly [0..n-1], each once, in any order, with the declared size equal
    to the sum of the payload lengths: every request before the last one
    answers that its chunk was received, the last one completes the upload,
    and the final file holds the payloads concatenated in index order. *)
Theorem reassembly_in_index_order (cfg : Config) fileName (n : nat) sz
    (subs : list (Z * list Byte.byte)) (st : State) :
  (1 <= n)%nat ->
  Permutation (map fst subs) (map Z.of_nat (seq 0 n)) ->
  sz = Z.of_nat (length (concat (map snd subs))) ->
  fm st !! fileName = None -> distinct_paths cfg fileName n ->
  exists os st',
    submit_seq cfg fileName (Z.of_nat n) sz subs st =
      (os ++ [ROk (Complete fileName (finalPathOf cfg fileName) sz)], st') /\
    Forall (fun o => exists i, o = ROk (ChunkReceived fileName i (Z.of_nat n))) os /\
    fs st' !! finalPathOf cfg fileName = Some (in_index_order (fun j => payload_at j subs) n).
Proof.
  intros Hn Hp Hsz Hnone Hd.
  assert (Hnd : NoDup (map fst subs)).
  { rewrite Hp. rewrite map_is_fmap. apply NoDup_fmap_2; [apply _|]. apply NoDup_seq. }
  assert (Hio : in_index_order (fun j => last_payload j subs) n =
                in_index_order (fun j => payload_at j subs) n).
  { unfold in_index_order. f_equal. apply map_ext. intros j.
    apply last_payload_first. exact Hnd. }
  assert (Hlen : sz = Z.of_nat (length (in_index_order (fun j => last_payload j subs) n))).
  { rewrite Hio, Hsz. f_equal. unfold in_index_order.
    rewrite (map_snd_payload_at _ Hnd).
    apply length_concat_perm.
    transitivity (map (fun k => payload_at k subs) (map Z.of_nat (seq 0 n))).
    - apply Permutation_map. exact Hp.
    - rewrite map_map. reflexivity. }
  destruct (exists_last (l := subs)) as (pre & [i b] & Hsubs).
  { intros ->. simpl in Hp. apply Permutation_length in Hp.
    rewrite length_map, length_seq in Hp. simpl in Hp. lia. }
  subst subs.
  assert (Hrange : Forall (fun j => 0 <= j < Z.of_nat n) (map fst (pre ++ [(i, b)]))).
  { apply Forall_forall. intros j Hj.
    apply (perm_index_range _ _ _ Hp) in Hj as (k & -> & Hk). lia. }
  assert (Hcov : covers n (pre ++ [(i, b)]) = true).
  { unfold covers. apply forallb_forall. intros k Hk. apply in_seq in Hk.
    apply bool_decide_eq_true_2. apply (perm_index_range _ _ _ Hp).
    exists k. split; [reflexivity|lia]. }
  assert (Hpre : covers n pre = false).
  { destruct (covers n pre) eqn:Hc; [|reflexivity]. exfalso.
    assert (Hi : i ∈ map fst (pre ++ [(i, b)])).
    { rewrite map_app. apply elem_of_app. right. simpl. apply elem_of_cons. left. reflexivity. }
    apply (perm_index_range _ _ _ Hp) in Hi as (k & -> & Hk).
    pose proof (covers_elem _ _ _ Hc Hk) as Hin.
    rewrite map_app in Hnd. simpl in Hnd.
    apply NoDup_app in Hnd as (_ & Hdisj & _).
    apply (Hdisj _ Hin). apply elem_of_cons. left. reflexivity. }
  destruct (run_upload cfg fileName n sz pre i b st Hnone Hd Hrange Hpre Hcov Hlen)
    as (st' & Hrun & Hfs).
  exists ((fun ib => ROk (ChunkReceived fileName ib.1 (Z.of_nat n))) <$> pre), st'.
  split; [exact Hrun|]. split.
  - apply Forall_fmap. apply Forall_forall. intros [k c] _. exists k. reflexivity.
  - rewrite Hfs, Hio. reflexivity.
Qed.

Lemma reassembly_in_index_order_witness :
  exists os st',
    submit_seq DefaultConfig "a.bin" (Z.of_nat 2) 13
      [(1, bytes "World!"); (0, bytes "Hello, ")] emptyState =
      (os ++ [ROk (Complete "a.bin" (finalPathOf DefaultConfig "a.bin") 13)], st') /\
    Forall (fun o => exists i, o = ROk (ChunkReceived "a.bin" i (Z.of_nat 2))) os /\
    fs st' !! finalPathOf DefaultConfig "a.bin" =
      Some (in_index_order (fun j => payload_at j
              [(1, bytes "World!"); (0, bytes "Hello, ")]) 2).
Proof.
  apply (reassembly_in_index_order DefaultConfig "a.bin" 2 13
           [(1, bytes "World!"); (0, bytes "Hello, ")] emptyState).
  - lia.
  - vm_compute. apply perm_swap.
  - reflexivity.
  - reflexivity.
  - apply (bool_decide_unpack _). vm_compute. exact I.
Defined.

(* ------------------------------------------------------------------ *)
(** ** Cleanup after a completed upload *)

Lemma wf_empty (cfg : Config) : chunk_paths_wf cfg ∅.
Proof. intros f slots j p Hf. rewrite lookup_empty in Hf. discriminate. Qed.

Lemma wf_insert (cfg : Config) (m : gmap string (list string)) f slots :
  chunk_paths_wf cfg m ->
  (forall j p, slots !! j = Some p -> p = "" \/ p = chunkPathOf (TempDir cfg) f (Z.of_nat j)) ->
  chunk_paths_wf cfg (<[f := slots]> m).
Proof.
  intros Hw Hs g s j p Hg Hj.
  apply lookup_insert_Some in Hg as [[<- <-]|[_ Hg]]; eauto.
Qed.

Lemma wf_delete (cfg : Config) (m : gmap string (list string)) f :
  chunk_paths_wf cfg m -> chunk_paths_wf cfg (delete f m).
Proof.
  intros Hw g s j p Hg Hj. apply lookup_delete_Some in Hg as [_ Hg]. eauto.
Qed.

Lemma slots_insert_wf (cfg : Config) f (slots : list string) i :
  0 <= i ->
  (forall j p, slots !! j = Some p -> p = "" \/ p = chunkPathOf (TempDir cfg) f (Z.of_nat j)) ->
  forall j p, <[Z.to_nat i := chunkPathOf (TempDir cfg) f i]> slots !! j = Some p ->
    p = "" \/ p = chunkPathOf (TempDir cfg) f (Z.of_nat j).
Proof.
  intros Hi Hs j p Hj.
  apply list_lookup_insert_Some in Hj as [(<- & <- & _)|(_ & Hj)].
  - right. rewrite Z2Nat.id by exact Hi. reflexivity.
  - eauto.
Qed.

Lemma replicate_wf (cfg : Config) f k :
  forall j p, replicate k "" !! j = Some p ->
    p = "" \/ p = chunkPathOf (TempDir cfg) f (Z.of_nat j).
Proof. intros j p Hj. apply lookup_replicate in Hj as [-> _]. left. reflexivity. Qed.

Lemma AddChunk_wf (cfg : Config) (m : gmap string (list string)) f i t :
  chunk_paths_wf cfg m ->
  chunk_paths_wf cfg (AddChunk m f (chunkPathOf (TempDir cfg) f i) i t).2.
Proof.
  intros Hw. unfold AddChunk.
  destruct (m !! f) as [s|] eqn:Hf; cbn.
  - rewrite Hf. cbn. destruct (_ && _) eqn:Hi; cbn; [|exact Hw].
    apply andb_true_iff in Hi as [Hi _]. apply Z.leb_le in Hi.
    apply wf_insert; [exact Hw|]. apply slots_insert_wf; [exact Hi|].
    intros j p Hj. exact (Hw _ _ _ _ Hf Hj).
  - destruct (t <? 0); cbn; [exact Hw|]. rewrite lookup_insert_eq. cbn.
    assert (Hw1 : chunk_paths_wf cfg (<[f := replicate (Z.to_nat t) ""]> m)).
    { apply wf_insert; [exact Hw|]. apply replicate_wf. }
    destruct (_ && _) eqn:Hi; cbn; [|exact Hw1].
    apply andb_true_iff in Hi as [Hi _]. apply Z.leb_le in Hi.
    apply wf_insert; [exact Hw1|]. apply slots_insert_wf; [exact Hi|]. apply replicate_wf.
Qed.

Lemma AddChunk_returned (m m' : gmap string (list string)) f p i t :
  AddChunk m f p i t = (Returned, m') ->
  exists slots0,
    (m !! f = Some slots0 \/ m !! f = None /\ slots0 = replicate (Z.to_nat t) "") /\
    0 <= i < Z.of_nat (length slots0) /\
    m' = <[f := <[Z.to_nat i := p]> slots0]> m.
Proof.
  unfold AddChunk. destruct (m !! f) as [s|] eqn:Hf; cbn.
  - rewrite Hf. cbn. destruct (_ && _) eqn:Hi; intros H; [|discriminate].
    injection H as <-. exists s. split; [left; reflexivity|]. split; [lia|reflexivity].
  - destruct (t <? 0); cbn; [discriminate|]. rewrite lookup_insert_eq. cbn.
    destruct (_ && _) eqn:Hi; intros H; [|discriminate].
    injection H as <-. exists (replicate (Z.to_nat t) "").
    split; [right; split; reflexivity|]. split; [lia|].
    apply insert_insert_eq.
Qed.

Lemma stitchFile_fm (cfg : Config) (flt : Faults) fileName sz (st : State) :
  fm (stitchFile cfg flt fileName sz st).2 = fm st.
Proof.
  unfold stitchFile.
  destruct (mkdir_uploads_fails flt); [reflexivity|].
  destruct (create_final_fails flt); [reflexivity|].
  destruct (copy_chunks _ _ _ _ _ _ _) as [[e|w] f1]; [reflexivity|].
  destruct (decide _); reflexivity.
Qed.

Lemma processChunk_wf (cfg : Config) (flt : Faults) info b (st : State) :
  chunk_paths_wf cfg (fm st) -> chunk_paths_wf cfg (fm (processChunk cfg flt info b st).2).
Proof.
  intros Hw. unfold processChunk.
  destruct (mkdir_temp_fails flt); [exact Hw|].
  destruct (saveChunk _ _ _ _) as [[e|] f]; [exact Hw|].
  pose proof (AddChunk_wf cfg (fm st) (FileName info) (ChunkIndex info) (TotalChunks info) Hw) as HA.
  unfold with_fs at 1. cbn [fm].
  destruct (AddChunk (fm st) _ _ _ _) as [[|] m] eqn:Hadd; cbn in HA |- *; [|exact HA].
  destruct (IsComplete m (FileName info)); [|exact HA].
  pose proof (stitchFile_fm cfg flt (FileName info) (FileSize info) (with_fm (with_fs st f) m)) as Hs.
  destruct (stitchFile _ _ _ _ _) as [[e|fp] st3]; cbn in Hs |- *; [rewrite Hs; exact HA|].
  destruct (AutoCleanup cfg); cbn; rewrite Hs; [apply wf_delete|]; exact HA.
Qed.

(** C9 (counterexample). With automatic cleanup on, the upload of
    [stray_subs] completes and its entry is removed, yet the chunk file
    written by the out-of-range request for index 5 (whose [AddChunk]
    panicked after the file was saved) is still on disk. *)
Lemma stray_chunk_survives_cleanup_cex :
  AutoCleanup DefaultConfig = true /\
  (submit_seq DefaultConfig "a.bin" 2 11 stray_subs emptyState).1 =
    [ROk (ChunkReceived "a.bin" 0 2); RPanic;
     ROk (Complete "a.bin" "uploads/a.bin" 11)] /\
  fs (submit_seq DefaultConfig "a.bin" 2 11 stray_subs emptyState).2 !! "uploads/a.bin" =
    Some (bytes "Hello World") /\
  fm (submit_seq DefaultConfig "a.bin" 2 11 stray_subs emptyState).2 !! "a.bin" = None /\
  fs (submit_seq DefaultConfig "a.bin" 2 11 stray_subs emptyState).2
    !! chunkPathOf (TempDir DefaultConfig) "a.bin" 5 = Some (bytes "junk").
Proof. vm_compute. repeat split. Qed.

(** C9 (amended). The recorded chunk paths are well formed in the empty
    state and after every request; and when a request completes an upload
    with automatic cleanup on, the entry is removed, [GetStatus] reports the
    name as unknown (not complete, 0 received, 0 total), and the chunk file
    of every index of the entry is gone.  Chunk files never recorded in
    the entry (those of requests whose [AddChunk] panicked) are not
    covered. *)
Theorem cleanup_after_complete (cfg : Config) :
  chunk_paths_wf cfg ∅ /\
  (forall flt info b st,
     chunk_paths_wf cfg (fm st) -> chunk_paths_wf cfg (fm (processChunk cfg flt info b st).2)) /\
  (forall flt info b st fp st',
     chunk_paths_wf cfg (fm st) -> AutoCleanup cfg = true ->
     processChunk cfg flt info b st = (ROk (Complete (FileName info) fp (FileSize info)), st') ->
     fm st' !! FileName info = None /\
     GetStatus st' (FileName info) =
       {| SFileName := FileName info; SIsComplete := false;
          SReceivedChunks := 0; STotalChunks := 0 |} /\
     (forall j, (j < entry_len (fm st) info)%nat ->
        fs st' !! chunkPathOf (TempDir cfg) (FileName info) (Z.of_nat j) = None)).
Proof.
  split; [apply wf_empty|]. split; [intros; apply processChunk_wf; assumption|].
  intros flt info b st fp st' Hw Hauto Hrun.
  set (f := FileName info) in *.
  set (cp := chunkPathOf (TempDir cfg) f (ChunkIndex info)) in *.
  unfold processChunk in Hrun. fold f cp in Hrun.
  destruct (mkdir_temp_fails flt); [discriminate|].
  destruct (saveChunk _ _ _ _) as [[e|] fs1]; [discriminate|].
  unfold with_fs at 1 in Hrun. cbn [fm] in Hrun.
  pose proof (AddChunk_wf cfg (fm st) f (ChunkIndex info) (TotalChunks info) Hw) as Hwm.
  destruct (AddChunk (fm st) f cp (ChunkIndex info) (TotalChunks info)) as [[|] m] eqn:Hadd;
    [|discriminate].
  fold cp in Hwm. rewrite Hadd in Hwm. cbn in Hwm. cbn [fm with_fm] in Hrun.
  destruct (IsComplete m f) eqn:Hc; [|discriminate].
  pose proof (stitchFile_fm cfg flt f (FileSize info) (with_fm (with_fs st fs1) m)) as Hs.
  destruct (stitchFile _ _ _ _ _) as [[e|fp'] st3]; [discriminate|].
  cbn in Hs. rewrite Hauto in Hrun. injection Hrun as _ <-.
  destruct (AddChunk_returned _ _ _ _ _ _ Hadd) as (slots0 & Hold & Hi & ->).
  set (slots := <[Z.to_nat (ChunkIndex info) := cp]> slots0) in *.
  assert (Hm : <[f := slots]> (fm st) !! f = Some slots) by apply lookup_insert_eq.
  assert (Hdel : fm (cleanupChunks f st3) !! f = None).
  { unfold cleanupChunks, RemoveFile. cbn [fm]. apply lookup_delete_eq. }
  split; [exact Hdel|]. split.
  { unfold GetStatus, IsComplete, GetReceivedChunksCount, GetChunks. rewrite Hdel. reflexivity. }
  intros j Hj.
  assert (Hlen : entry_len (fm st) info = length slots0).
  { unfold entry_len. fold f. destruct Hold as [Ho|[Ho ->]]; rewrite Ho;
      [reflexivity|]. rewrite length_replicate. reflexivity. }
  rewrite Hlen in Hj.
  assert (Hj' : (j < length slots)%nat) by (unfold slots; rewrite length_insert; exact Hj).
  destruct (lookup_lt_is_Some_2 _ _ Hj') as [p Hp].
  unfold IsComplete in Hc. rewrite Hm in Hc.
  assert (Hne : p <> "").
  { rewrite forallb_forall in Hc.
    assert (Hin : In p slots) by (apply list_elem_of_In; eapply list_elem_of_lookup_2; exact Hp).
    specialize (Hc p Hin). apply negb_true_iff, String.eqb_neq in Hc. exact Hc. }
  destruct (Hwm f slots j p Hm Hp) as [Hp0|Hp0]; [contradiction|].
  unfold cleanupChunks, GetChunks. cbn [fs]. rewrite Hs, Hm.
  rewrite <- Hp0. apply cleanup_fold_removes; [|exact Hne].
  eapply list_elem_of_lookup_2. exact Hp.
Qed.

Lemma cleanup_after_complete_witness :
  let st := (processChunk DefaultConfig NoFaults (mkInfo "a.bin" 0 2 11) (bytes "Hello")
               emptyState).2 in
  let st' := (processChunk DefaultConfig NoFaults (mkInfo "a.bin" 1 2 11) (bytes " World")
                st).2 in
  fm st' !! "a.bin" = None /\
  GetStatus st' "a.bin" =
    {| SFileName := "a.bin"; SIsComplete := false; SReceivedChunks := 0; STotalChunks := 0 |} /\
  (forall j, (j < entry_len (fm st) (mkInfo "a.bin" 1 2 11))%nat ->
     fs st' !! chunkPathOf (TempDir DefaultConfig) "a.bin" (Z.of_nat j) = None).
Proof.
  intros st st'.
  destruct (cleanup_after_complete DefaultConfig) as (H0 & Hstep & Hdone).
  apply (Hdone NoFaults (mkInfo "a.bin" 1 2 11) (bytes " World") st "uploads/a.bin" st').
  - apply Hstep. exact H0.
  - reflexivity.
  - vm_compute. reflexivity.
Defined.

(* ------------------------------------------------------------------ *)
(** ** Slices handed out by [GetChunks] *)

(** A slice at [s] is unreachable from the index, and [s] is allocated. *)
Definition heap_snap_ok (h : SliceHeap.Heap) (s : nat) : Prop :=
  (s < SliceHeap.next h)%nat /\
  forall f l, SliceHeap.index h !! f = Some l -> l <> s.

Lemma heap_AddChunk_snap (h : SliceHeap.Heap) g p i t s :
  heap_snap_ok h s ->
  heap_snap_ok (SliceHeap.AddChunk h g p i t).2 s /\
  SliceHeap.arrays (SliceHeap.AddChunk h g p i t).2 !! s = SliceHeap.arrays h !! s.
Proof.
  intros [Hlt Hidx]. unfold SliceHeap.AddChunk.
  destruct (SliceHeap.index h !! g) as [l0|] eqn:Hg; cbn.
  - rewrite Hg. destruct (_ && _); cbn; [|split; [split|]; auto].
    split; [split; auto|]. apply lookup_insert_ne. exact (Hidx g l0 Hg).
  - destruct (t <? 0); cbn; [split; [split|]; auto|].
    rewrite lookup_insert_eq. cbn.
    assert (Hok : heap_snap_ok
              {| SliceHeap.arrays := <[SliceHeap.next h := replicate (Z.to_nat t) ""]>
                                       (SliceHeap.arrays h);
                 SliceHeap.index := <[g := SliceHeap.next h]> (SliceHeap.index h);
                 SliceHeap.next := S (SliceHeap.next h) |} s).
    { split; cbn; [lia|]. intros f l Hf.
      apply lookup_insert_Some in Hf as [[_ <-]|[_ Hf]]; [lia|exact (Hidx f l Hf)]. }
    destruct (_ && _); cbn.
    + split; [exact Hok|]. rewrite !lookup_insert_ne by lia. reflexivity.
    + split; [exact Hok|]. rewrite lookup_insert_ne by lia. reflexivity.
Qed.

Lemma heap_AddChunks_snap (h : SliceHeap.Heap) ops s :
  heap_snap_ok h s ->
  SliceHeap.read (SliceHeap.AddChunks h ops) (Some s) = SliceHeap.read h (Some s).
Proof.
  revert h. induction ops as [|[[[g p] i] t] ops IH]; intros h Hok; [reflexivity|].
  cbn [SliceHeap.AddChunks]. destruct (heap_AddChunk_snap h g p i t s Hok) as [Hok' Hs].
  rewrite IH by exact Hok'. unfold SliceHeap.read. rewrite Hs. reflexivity.
Qed.

Lemma heap_AddChunk_below (h : SliceHeap.Heap) g p i t :
  SliceHeap.index_below_next h -> SliceHeap.index_below_next (SliceHeap.AddChunk h g p i t).2.
Proof.
  intros Hb. unfold SliceHeap.AddChunk.
  destruct (SliceHeap.index h !! g) as [l0|] eqn:Hg; cbn.
  - rewrite Hg. destruct (_ && _); exact Hb.
  - destruct (t <? 0); cbn; [exact Hb|]. rewrite lookup_insert_eq. cbn.
    assert (Hb' : forall f l, <[g := SliceHeap.next h]> (SliceHeap.index h) !! f = Some l ->
                              (l < S (SliceHeap.next h))%nat).
    { intros f l Hf. apply lookup_insert_Some in Hf as [[_ <-]|[_ Hf]]; [lia|].
      specialize (Hb f l Hf). lia. }
    destruct (_ && _); exact Hb'.
Qed.

Lemma heap_GetChunks_below (h : SliceHeap.Heap) f :
  SliceHeap.index_below_next h -> SliceHeap.index_below_next (SliceHeap.GetChunks h f).1.
Proof.
  intros Hb. unfold SliceHeap.GetChunks.
  destruct (SliceHeap.index h !! f) as [l0|]; cbn; [|exact Hb].
  intros g l Hl. specialize (Hb g l Hl). cbn. lia.
Qed.

Lemma heap_GetChunks_copy (h : SliceHeap.Heap) f :
  SliceHeap.index_below_next h ->
  SliceHeap.read (SliceHeap.GetChunks h f).1 (SliceHeap.GetChunks h f).2 =
    SliceHeap.read h (SliceHeap.legacy_GetChunks h f) /\
  forall s, (SliceHeap.GetChunks h f).2 = Some s -> heap_snap_ok (SliceHeap.GetChunks h f).1 s.
Proof.
  intros Hb. unfold SliceHeap.GetChunks, SliceHeap.legacy_GetChunks.
  destruct (SliceHeap.index h !! f) as [l0|]; cbn; [|split; [reflexivity|discriminate]].
  split; [rewrite lookup_insert_eq; reflexivity|].
  intros s [= <-]. split; cbn; [lia|].
  intros g l Hl. specialize (Hb g l Hl). lia.
Qed.

(** C3. [GetChunks] of uploader.go hands out a snapshot: the heap
    invariant holds initially and is kept by [AddChunk] and [GetChunks];
    the returned slice holds the entry at the time of the call, and no
    sequence of later inserts, for this name or any other, changes what
    it holds. *)
Theorem GetChunks_snapshot :
  SliceHeap.index_below_next SliceHeap.empty /\
  (forall h g p i t, SliceHeap.index_below_next h ->
     SliceHeap.index_below_next (SliceHeap.AddChunk h g p i t).2) /\
  (forall h f, SliceHeap.index_below_next h ->
     SliceHeap.index_below_next (SliceHeap.GetChunks h f).1) /\
  (forall h f ops, SliceHeap.index_below_next h ->
     SliceHeap.read (SliceHeap.GetChunks h f).1 (SliceHeap.GetChunks h f).2 =
       SliceHeap.read h (SliceHeap.legacy_GetChunks h f) /\
     SliceHeap.read (SliceHeap.AddChunks (SliceHeap.GetChunks h f).1 ops)
                    (SliceHeap.GetChunks h f).2 =
       SliceHeap.read (SliceHeap.GetChunks h f).1 (SliceHeap.GetChunks h f).2).
Proof.
  split; [intros f l Hf; cbn in Hf; rewrite lookup_empty in Hf; discriminate|].
  split; [exact heap_AddChunk_below|].
  split; [exact heap_GetChunks_below|].
  intros h f ops Hb.
  destruct (heap_GetChunks_copy h f Hb) as [Hc Hok]. split; [exact Hc|].
  destruct (SliceHeap.GetChunks h f).2 as [s|] eqn:Hs; [|reflexivity].
  apply heap_AddChunks_snap. apply Hok. reflexivity.
Qed.

Lemma GetChunks_snapshot_witness :
  let h := (SliceHeap.AddChunk SliceHeap.empty "a.bin" "temp_chunks/a.bin_chunk_0" 0 2).2 in
  let ops := [("a.bin", "temp_chunks/a.bin_chunk_1", 1, 2)] in
  SliceHeap.read (SliceHeap.GetChunks h "a.bin").1 (SliceHeap.GetChunks h "a.bin").2 =
    SliceHeap.read h (SliceHeap.legacy_GetChunks h "a.bin") /\
  SliceHeap.read (SliceHeap.AddChunks (SliceHeap.GetChunks h "a.bin").1 ops)
                 (SliceHeap.GetChunks h "a.bin").2 =
    SliceHeap.read (SliceHeap.GetChunks h "a.bin").1 (SliceHeap.GetChunks h "a.bin").2.
Proof.
  intros h ops.
  destruct GetChunks_snapshot as (H0 & HA & _ & Hs).
  apply Hs. apply HA. exact H0.
Defined.

(** C3 (lib.go). [GetChunks] of lib.go returns the slice of the index
    itself: after chunk 0 of two is recorded, the slice it returns holds
    [[chunk_0; ""]], and recording chunk 1 changes what that same slice
    holds; the copy made by uploader.go's [GetChunks] still holds
    [[chunk_0; ""]]. *)
Lemma legacy_GetChunks_live_cex :
  let h := (SliceHeap.AddChunk SliceHeap.empty "a.bin" "temp_chunks/a.bin_chunk_0" 0 2).2 in
  let s := SliceHeap.legacy_GetChunks h "a.bin" in
  let h' := (SliceHeap.AddChunk h "a.bin" "temp_chunks/a.bin_chunk_1" 1 2).2 in
  let (hc, c) := SliceHeap.GetChunks h "a.bin" in
  SliceHeap.read h s = ["temp_chunks/a.bin_chunk_0"; ""] /\
  SliceHeap.read h' s = ["temp_chunks/a.bin_chunk_0"; "temp_chunks/a.bin_chunk_1"] /\
  SliceHeap.read (SliceHeap.AddChunk hc "a.bin" "temp_chunks/a.bin_chunk_1" 1 2).2 c =
    ["temp_chunks/a.bin_chunk_0"; ""].
Proof. vm_compute. repeat split. Qed.

(* ------------------------------------------------------------------ *)
(** ** Further properties of the code *)

Lemma digit_val_char d : 0 <= d < 10 -> digit_val (digit_char d) = Some d.
Proof.
  intros Hd. unfold digit_val, digit_char.
  rewrite nat_ascii_embedding by lia.
  replace (Z.of_nat (48 + Z.to_nat d)) with (48 + d) by lia.
  replace ((48 <=? 48 + d) && (48 + d <=? 57)) with true by lia.
  f_equal. lia.
Qed.

Lemma parse_digits_dec fuel : forall z acc a,
  0 <= z < 10 ^ Z.of_nat (S fuel) ->
  exists k, parse_digits (dec_digits fuel z acc) a = parse_digits acc (a * 10 ^ Z.of_nat k + z).
Proof.
  induction fuel as [|f IH]; intros z acc a Hz.
  - exists 1%nat. cbn [dec_digits parse_digits]. rewrite Z.mod_small by (simpl in Hz; lia).
    rewrite digit_val_char by (simpl in Hz; lia). f_equal; simpl; lia.
  - cbn [dec_digits]. destruct (Z.ltb_spec z 10).
    + exists 1%nat. cbn [parse_digits]. rewrite digit_val_char by lia. f_equal; simpl; lia.
    + destruct (IH (z / 10) (String (digit_char (z mod 10)) acc) a) as [k Hk].
      { split; [apply Z.div_pos; lia|].
        apply Z.div_lt_upper_bound; [lia|]. rewrite <- Z.pow_succ_r by lia.
        replace (Z.succ (Z.of_nat (S f))) with (Z.of_nat (S (S f))) by lia. lia. }
      exists (S k). rewrite Hk. cbn [parse_digits].
      rewrite digit_val_char by (pose proof (Z.mod_pos_bound z 10); lia).
      f_equal. rewrite Nat2Z.inj_succ, Z.pow_succ_r by lia.
      pose proof (Z.div_mod z 10). lia.
Qed.

Lemma dec_digits_head fuel : forall z acc, 0 <= z ->
  exists d r, dec_digits fuel z acc = String (digit_char d) r /\ 0 <= d < 10.
Proof.
  induction fuel as [|f IH]; intros z acc Hz; cbn [dec_digits].
  - exists (z mod 10), acc. split; [reflexivity|]. apply Z.mod_pos_bound. lia.
  - destruct (Z.ltb_spec z 10).
    + exists z, acc. split; [reflexivity|lia].
    + apply IH. apply Z.div_pos; lia.
Qed.

Lemma pos_lt_pow2_size p : Zpos p < 2 ^ Z.of_nat (Pos.size_nat p).
Proof.
  induction p as [p IH|p IH|]; cbn [Pos.size_nat]; rewrite ?Nat2Z.inj_succ, ?Z.pow_succ_r by lia;
    simpl; lia.
Qed.

Lemma itoa_fuel z :
  0 <= Z.abs z <
    10 ^ Z.of_nat (S (match Z.abs z with Zpos p => Pos.size_nat p | _ => 1%nat end)).
Proof.
  split; [lia|].
  destruct (Z.abs z) as [|p|p] eqn:E; [simpl; lia| |lia].
  pose proof (pos_lt_pow2_size p).
  assert (2 ^ Z.of_nat (Pos.size_nat p) <= 10 ^ Z.of_nat (Pos.size_nat p)).
  { apply Z.pow_le_mono_l. lia. }
  rewrite Nat2Z.inj_succ, Z.pow_succ_r by lia.
  assert (0 < 10 ^ Z.of_nat (Pos.size_nat p)) by (apply Z.pow_pos_nonneg; lia).
  lia.
Qed.

Lemma ParseInt_digit_string d r :
  0 <= d < 10 ->
  ParseInt (String (digit_char d) r) =
    match parse_digits (String (digit_char d) r) 0 with
    | None => None
    | Some v => if (int64_min <=? v) && (v <=? int64_max) then Some v else None
    end.
Proof.
  intros Hd.
  assert (Hc : d = 0 \/ d = 1 \/ d = 2 \/ d = 3 \/ d = 4 \/ d = 5 \/ d = 6 \/ d = 7 \/ d = 8 \/ d = 9)
    by lia.
  repeat destruct Hc as [->|Hc]; try (subst d); reflexivity.
Qed.

(** [strconv.Atoi] / [strconv.ParseInt] read back what [fmt] [%d] writes,
    exactly for the values in the [int64] range. *)
Theorem ParseInt_itoa z :
  ParseInt (itoa z) = if (int64_min <=? z) && (z <=? int64_max) then Some z else None.
Proof.
  unfold itoa.
  set (fuel := match Z.abs z with Zpos p => Pos.size_nat p | _ => 1%nat end).
  pose proof (itoa_fuel z) as Hf. fold fuel in Hf.
  destruct (parse_digits_dec fuel (Z.abs z) EmptyString 0 Hf) as [k Hk].
  cbn [parse_digits] in Hk. rewrite Z.mul_0_l, Z.add_0_l in Hk.
  destruct (dec_digits_head fuel (Z.abs z) EmptyString ltac:(lia)) as (d & r & Hdr & Hd).
  destruct (Z.ltb_spec z 0).
  - unfold ParseInt. rewrite Hdr. rewrite Hdr in Hk. rewrite Hk.
    replace (- Z.abs z) with z by lia. reflexivity.
  - rewrite Hdr, ParseInt_digit_string by exact Hd. rewrite <- Hdr, Hk.
    replace (Z.abs z) with z by lia. reflexivity.
Qed.

(** [extractChunkInfo] on a form whose first fields are the ones a client
    writes for [info] returns [info], unless a number is out of the [int64]
    range, in which case the first such field is reported. *)
Theorem extractChunkInfo_chunk_form (info : ChunkInfo) (r : Request) extra :
  FileName info <> "" -> Form r = chunk_form info ++ extra ->
  extractChunkInfo r =
    if negb (in_int64 (ChunkIndex info)) then inl EInvalidChunkIndex
    else if negb (in_int64 (TotalChunks info)) then inl EInvalidTotalChunks
    else if negb (in_int64 (FileSize info)) then inl EInvalidFileSize
    else inr info.
Proof.
  intros Hn Hf. unfold extractChunkInfo, FormValue. rewrite Hf. cbn -[itoa Atoi ParseInt].
  destruct (String.eqb_spec (FileName info) ""); [contradiction|].
  unfold Atoi. rewrite !ParseInt_itoa. unfold in_int64.
  destruct ((int64_min <=? ChunkIndex info) && (ChunkIndex info <=? int64_max)); [|reflexivity].
  destruct ((int64_min <=? TotalChunks info) && (TotalChunks info <=? int64_max)); [|reflexivity].
  destruct ((int64_min <=? FileSize info) && (FileSize info <=? int64_max)); [|reflexivity].
  destruct info; reflexivity.
Qed.

Lemma AddChunk_Panicked (m m' : gmap string (list string)) f p i t :
  AddChunk m f p i t = (Panicked, m') <->
  AddChunk_panics m f i t = true /\ m' = alloc_entry m f t.
Proof.
  unfold AddChunk, AddChunk_panics, alloc_entry.
  destruct (m !! f) as [s|] eqn:Hf; cbn.
  - rewrite Hf. cbn. destruct (_ && _); cbn; split; intros H; try discriminate;
      try (destruct H; discriminate); [injection H as <-; split; reflexivity|].
    destruct H as [_ <-]. reflexivity.
  - destruct (Z.ltb_spec t 0) as [Ht|Ht]; cbn.
    + split; [intros H; injection H as <-; split; reflexivity|].
      intros [_ <-]. reflexivity.
    + rewrite lookup_insert_eq. cbn. rewrite length_replicate, Z2Nat.id by lia.
      destruct (_ && _); cbn; split; intros H; try discriminate;
        try (destruct H; discriminate); [injection H as <-; split; reflexivity|].
      destruct H as [_ <-]. reflexivity.
Qed.

(** With the chunk file written, [processChunk] panics exactly when
    [AddChunk] does; the chunk file stays on disk and an entry allocated
    before the panic stays in the index. *)
Theorem processChunk_panics (cfg : Config) (flt : Faults) info b (st st' : State) :
  mkdir_temp_fails flt = false -> create_temp_fails flt = false -> copy_temp_fails flt = None ->
  processChunk cfg flt info b st = (RPanic, st') <->
  AddChunk_panics (fm st) (FileName info) (ChunkIndex info) (TotalChunks info) = true /\
  st' = {| fm := alloc_entry (fm st) (FileName info) (TotalChunks info);
           fs := <[chunkPathOf (TempDir cfg) (FileName info) (ChunkIndex info) := b]> (fs st) |}.
Proof.
  intros H1 H2 H3. unfold processChunk, saveChunk. rewrite H1, H2, H3.
  unfold with_fs at 1. cbn [fm].
  destruct (AddChunk (fm st) _ _ _ _) as [[|] m] eqn:HA.
  - split.
    + intros H. exfalso. cbn in H. repeat (case_match; simplify_eq/=; try done).
    + intros [Hp _]. exfalso.
      assert (Hc : AddChunk (fm st) (FileName info)
                     (chunkPathOf (TempDir cfg) (FileName info) (ChunkIndex info))
                     (ChunkIndex info) (TotalChunks info) =
                   (Panicked, alloc_entry (fm st) (FileName info) (TotalChunks info)))
        by (apply AddChunk_Panicked; split; [exact Hp|reflexivity]).
      congruence.
  - apply AddChunk_Panicked in HA as [Hp ->]. split.
    + intros H. injection H as <-. split; [exact Hp|reflexivity].
    + intros [_ ->]. reflexivity.
Qed.

Lemma processChunk_empty_entry (cfg : Config) (flt : Faults) info b (st : State) :
  fm st !! FileName info = Some [] ->
  match (processChunk cfg flt info b st).1 with ROk _ => False | _ => True end /\
  fm (processChunk cfg flt info b st).2 = fm st.
Proof.
  intros He. unfold processChunk.
  destruct (mkdir_temp_fails flt); [split; reflexivity|].
  destruct (saveChunk _ _ _ _) as [[e|] f]; [split; reflexivity|].
  change (fm (with_fs st f)) with (fm st).
  rewrite (AddChunk_existing _ _ _ _ _ [] He).
  destruct (_ && _) eqn:E; [apply andb_true_iff in E as [E1 E2]; apply Z.leb_le in E1; apply Z.ltb_lt in E2; cbn in E2; lia|].
  split; reflexivity.
Qed.

(** A first request for a name with [totalChunks = 0] panics, but leaves an
    empty entry: the name then reports complete with 0 of 0 chunks, and no
    later request for it can succeed or change the index. *)
Theorem zero_total_poisons (cfg : Config) (flt : Faults) info b (st : State) :
  mkdir_temp_fails flt = false -> create_temp_fails flt = false -> copy_temp_fails flt = None ->
  fm st !! FileName info = None -> TotalChunks info = 0 ->
  let st' := (processChunk cfg flt info b st).2 in
  (processChunk cfg flt info b st).1 = RPanic /\
  fm st' !! FileName info = Some [] /\
  GetStatus st' (FileName info) =
    {| SFileName := FileName info; SIsComplete := true;
       SReceivedChunks := 0; STotalChunks := 0 |} /\
  (forall flt2 info2 b2 st2, FileName info2 = FileName info ->
     fm st2 !! FileName info = Some [] ->
     match (processChunk cfg flt2 info2 b2 st2).1 with ROk _ => False | _ => True end /\
     fm (processChunk cfg flt2 info2 b2 st2).2 = fm st2).
Proof.
  intros H1 H2 H3 Hnone Ht st'.
  assert (Hp : AddChunk_panics (fm st) (FileName info) (ChunkIndex info) (TotalChunks info) = true).
  { unfold AddChunk_panics. rewrite Hnone, Ht. cbn. lia. }
  pose proof (proj2 (processChunk_panics cfg flt info b st _ H1 H2 H3) (conj Hp eq_refl)) as HP.
  assert (Hfm : fm st' !! FileName info = Some []).
  { unfold st'. rewrite HP. cbn. unfold alloc_entry. rewrite Hnone, Ht. cbn.
    apply lookup_insert_eq. }
  split; [rewrite HP; reflexivity|]. split; [exact Hfm|]. split.
  - unfold GetStatus, IsComplete, GetReceivedChunksCount, GetChunks. rewrite Hfm. reflexivity.
  - intros flt2 info2 b2 st2 Hn He. rewrite <- Hn in He. apply processChunk_empty_entry. exact He.
Qed.

Lemma cleanup_fold_lookup (l : list string) (f0 : gmap string (list Byte.byte)) q :
  fold_left (fun f p => if String.eqb p "" then f else delete p f) l f0 !! q =
  if bool_decide (q ∈ l /\ q <> "") then None else f0 !! q.
Proof.
  revert f0. induction l as [|p l IH]; intros f0; cbn [fold_left].
  - rewrite bool_decide_false; [reflexivity|]. intros [Hq _]. apply not_elem_of_nil in Hq. exact Hq.
  - rewrite IH. case_bool_decide as H1; case_bool_decide as H2; try reflexivity.
    + exfalso. apply H2. destruct H1 as [H1 H1']. split; [apply elem_of_cons; right; exact H1|exact H1'].
    + destruct H2 as [H2 Hne]. apply elem_of_cons in H2 as [Eq|H2].
      * subst p. destruct (String.eqb_spec q ""); [contradiction|]. apply lookup_delete_eq.
      * exfalso. apply H1. split; assumption.
    + destruct (String.eqb_spec p ""); [reflexivity|].
      apply lookup_delete_ne. intros ->. apply H2. split; [apply elem_of_cons; left; reflexivity|].
      assumption.
Qed.

(** [CleanupFile] drops the name from the index, deletes exactly the
    recorded non-empty chunk paths, and the name then reports unknown. *)
Theorem CleanupFile_spec (fileName : string) (st : State) :
  fm (CleanupFile fileName st) = delete fileName (fm st) /\
  (forall q, fs (CleanupFile fileName st) !! q =
     if bool_decide (q ∈ GetChunks (fm st) fileName /\ q <> "") then None else fs st !! q) /\
  GetStatus (CleanupFile fileName st) fileName =
    {| SFileName := fileName; SIsComplete := false; SReceivedChunks := 0; STotalChunks := 0 |}.
Proof.
  split; [reflexivity|]. split.
  - intros q. unfold CleanupFile, cleanupChunks. cbn [fs]. apply cleanup_fold_lookup.
  - unfold GetStatus, CleanupFile, cleanupChunks, RemoveFile, IsComplete,
      GetReceivedChunksCount, GetChunks. cbn [fm]. rewrite lookup_delete_eq. reflexivity.
Qed.

Lemma state_eq (s1 s2 : State) : fm s1 = fm s2 -> fs s1 = fs s2 -> s1 = s2.
Proof. destruct s1, s2; cbn. intros -> ->. reflexivity. Qed.

(** [CleanupFile] is idempotent, and cleanups of two names commute. *)
Theorem CleanupFile_idem_comm (f g : string) (st : State) :
  CleanupFile f (CleanupFile f st) = CleanupFile f st /\
  CleanupFile f (CleanupFile g st) = CleanupFile g (CleanupFile f st).
Proof.
  assert (Idem : forall st, CleanupFile f (CleanupFile f st) = CleanupFile f st).
  { intros st0. apply state_eq.
    - destruct (CleanupFile_spec f (CleanupFile f st0)) as [-> _].
      destruct (CleanupFile_spec f st0) as [-> _]. apply delete_delete_eq.
    - apply map_eq. intros q.
      destruct (CleanupFile_spec f (CleanupFile f st0)) as [_ [-> _]].
      destruct (CleanupFile_spec f st0) as [Hm _]. rewrite Hm.
      unfold GetChunks. rewrite lookup_delete_eq.
      rewrite bool_decide_false; [reflexivity|]. intros [Hq _]. apply not_elem_of_nil in Hq. exact Hq. }
  split; [apply Idem|].
  destruct (decide (f = g)) as [<-|Hfg]; [reflexivity|].
  apply state_eq.
  - destruct (CleanupFile_spec f (CleanupFile g st)) as [-> _].
    destruct (CleanupFile_spec g (CleanupFile f st)) as [-> _].
    destruct (CleanupFile_spec g st) as [-> _].
    destruct (CleanupFile_spec f st) as [-> _].
    apply delete_delete.
  - apply map_eq. intros q.
    destruct (CleanupFile_spec f (CleanupFile g st)) as [_ [-> _]].
    destruct (CleanupFile_spec g (CleanupFile f st)) as [_ [-> _]].
    destruct (CleanupFile_spec g st) as [Hg [Hgq _]].
    destruct (CleanupFile_spec f st) as [Hf [Hfq _]].
    rewrite Hgq, Hfq, Hg, Hf. unfold GetChunks.
    rewrite lookup_delete_ne by congruence. rewrite lookup_delete_ne by congruence.
    repeat case_bool_decide; reflexivity.
Qed.

Lemma IsComplete_insert_slot (m : gmap string (list string)) f slots k p :
  m !! f = Some slots -> IsComplete m f = true -> p <> "" ->
  IsComplete (<[f := <[k := p]> slots]> m) f = true.
Proof.
  unfold IsComplete. intros Hm. rewrite Hm, lookup_insert_eq. intros Hc Hp.
  apply forallb_forall. intros x Hx. apply list_elem_of_In in Hx.
  apply list_elem_of_lookup in Hx as [j Hj].
  apply list_lookup_insert_Some in Hj as [(_ & <- & _)|(_ & Hj)].
  - apply negb_true_iff, String.eqb_neq. exact Hp.
  - rewrite forallb_forall in Hc. apply Hc. apply list_elem_of_In.
    eapply list_elem_of_lookup_2. exact Hj.
Qed.

(** Without [AutoCleanup] the entry stays complete after an assembly; a
    request for an in-range index of a complete entry (chunk file written)
    always assembles again, or fails in the assembly. *)
Theorem complete_entry_restitches (cfg : Config) :
  (forall flt info b st fp sz st',
     AutoCleanup cfg = false ->
     processChunk cfg flt info b st = (ROk (Complete (FileName info) fp sz), st') ->
     IsComplete (fm st') (FileName info) = true) /\
  (forall flt info b st slots,
     mkdir_temp_fails flt = false -> create_temp_fails flt = false -> copy_temp_fails flt = None ->
     fm st !! FileName info = Some slots -> IsComplete (fm st) (FileName info) = true ->
     0 <= ChunkIndex info < Z.of_nat (length slots) ->
     match (processChunk cfg flt info b st).1 with
     | ROk (Complete _ _ _) | RErr (EStitching _) => True
     | _ => False
     end).
Proof.
  split.
  - intros flt info b st fp sz st' Hauto H. unfold processChunk in H.
    destruct (mkdir_temp_fails flt); [discriminate|].
    destruct (saveChunk _ _ _ _) as [[e|] f]; [discriminate|].
    destruct (AddChunk _ _ _ _ _) as [[|] m]; [|discriminate].
    destruct (IsComplete _ _) eqn:Hc; [|discriminate].
    pose proof (stitchFile_fm cfg flt (FileName info) (FileSize info) (with_fm (with_fs st f) m)) as Hs.
    destruct (stitchFile _ _ _ _ _) as [[e|p] st3]; [discriminate|].
    rewrite Hauto in H. injection H as _ _ <-. cbn in Hs, Hc. rewrite Hs. exact Hc.
  - intros flt info b st slots H1 H2 H3 Hm Hc Hi.
    unfold processChunk, saveChunk. rewrite H1, H2, H3.
    change (fm (with_fs st (<[chunkPathOf (TempDir cfg) (FileName info) (ChunkIndex info) := b]> (fs st))))
      with (fm st).
    rewrite (AddChunk_existing _ _ _ _ _ slots Hm).
    replace ((0 <=? ChunkIndex info) && (ChunkIndex info <? Z.of_nat (length slots))) with true by lia.
    cbn [with_fm fm].
    rewrite (IsComplete_insert_slot _ _ slots) by (exact Hm || exact Hc || apply chunkPathOf_nonempty).
    destruct (stitchFile _ _ _ _ _) as [[e|p] st3]; exact I.
Qed.

(** lib.go's [UploaderHelper] and uploader.go's [HandleUpload] with the
    default configuration answer every request alike, with the same state,
    up to the assembly step: both assemble (or fail assembling) together. *)
Theorem legacy_agrees_before_assembly (flt : Faults) guid (r : Request) (st : State) :
  let '(o, s) := HandleUpload DefaultConfig flt r st in
  let '(o', s') := UploaderHelper flt guid r st in
  match o with
  | ROk (ChunkReceived f i t) => o' = ROk (LChunkReceived f i t) /\ s' = s
  | ROk (Complete _ _ _) | RErr (EStitching _) =>
      match o' with
      | ROk (LComplete _ _ _) | RErr (EStitching _) => True
      | _ => False
      end
  | RErr e => o' = RErr e /\ s' = s
  | RPanic => o' = RPanic /\ s' = s
  end.
Proof.
  unfold HandleUpload, UploaderHelper, processChunk.
  destruct (negb (String.eqb (Method r) "POST")); [cbn; tauto|].
  destruct (negb (FormParses r)); [cbn; tauto|].
  destruct (extractChunkInfo r) as [e|info]; [cbn; destruct e; cbn; tauto|].
  destruct (ChunkPart r) as [file|]; [|cbn; tauto].
  destruct (mkdir_temp_fails flt); [cbn; tauto|].
  change (TempDir DefaultConfig) with "./temp_chunks".
  destruct (saveChunk _ _ _ _) as [[e|] f]; [cbn; destruct e; cbn; tauto|].
  destruct (AddChunk _ _ _ _ _) as [[|] m]; [|cbn; tauto].
  destruct (IsComplete _ _); [|cbn; tauto].
  destruct (stitchFile _ _ _ _ _) as [[e|p] st3];
    destruct (legacy_stitchFile _ _ _ _ _) as [[e'|md] st4]; cbn; tauto.
Qed.

Lemma take_elem (x : string) k (l : list string) : x ∈ take k l -> x ∈ l.
Proof. intros H. apply elem_of_take in H as (j & Hj & _). eapply list_elem_of_lookup_2. exact Hj. Qed.

Lemma copy_chunks_fail (flt : Faults) fileName finalPath (i k : nat)
    (chunks : list string) (tot : Z) (f : gmap string (list Byte.byte))
    (base : list Byte.byte) :
  copy_final_fails flt = Some (i + k)%nat -> (k < length chunks)%nat ->
  f !! finalPath = Some base ->
  Forall (fun p => p <> "" /\ p <> finalPath /\ is_Some (f !! p)) chunks ->
  copy_chunks flt fileName finalPath i chunks tot f =
    (inl (ECopyChunk (Z.of_nat (i + k))),
     <[finalPath := base ++ concat (map (fun p => default [] (f !! p)) (take k chunks))]> f).
Proof.
  revert i k tot f base.
  induction chunks as [|p rest IH]; intros i k tot f base Hflt Hk Hb Hall; [cbn in Hk; lia|].
  apply Forall_cons in Hall as [(Hp & Hpf & [d Hd]) Hrest]. cbn [copy_chunks].
  destruct (String.eqb_spec p "") as [|_]; [congruence|].
  rewrite Hd. destruct k as [|k].
  - rewrite decide_True by (rewrite Hflt; f_equal; lia). cbn.
    rewrite app_nil_r, insert_id by exact Hb. rewrite Nat.add_0_r. reflexivity.
  - rewrite decide_False by (rewrite Hflt; intros [=]; lia).
    rewrite Hb. cbn [default].
    set (f' := <[finalPath := base ++ d]> f).
    assert (Hf' : forall q, q <> finalPath -> f' !! q = f !! q).
    { intros q Hq. unfold f'. rewrite lookup_insert_ne by congruence. reflexivity. }
    assert (Hrest' : Forall (fun p => p <> "" /\ p <> finalPath /\ is_Some (f' !! p)) rest).
    { eapply Forall_impl; [exact Hrest|]. intros q (H1 & H2 & H3).
      rewrite Hf' by exact H2. auto. }
    rewrite (IH (S i) k _ f' (base ++ d)); [| rewrite Hflt; f_equal; lia | cbn in Hk; lia
      | unfold f'; apply lookup_insert_eq | exact Hrest'].
    assert (Hmap : map (fun q => default [] (f' !! q)) (take k rest) =
                   map (fun q => default [] (f !! q)) (take k rest)).
    { apply map_ext_in. intros q Hq. apply list_elem_of_In, take_elem in Hq.
      rewrite Forall_forall in Hrest.
      destruct (Hrest q Hq) as (_ & H2 & _). rewrite Hf' by exact H2. reflexivity. }
    rewrite Hmap. unfold f'. rewrite insert_insert_eq, <- app_assoc.
    cbn [take map concat]. rewrite Hd. cbn [default].
    replace (S i + k)%nat with (i + S k)%nat by lia. reflexivity.
Qed.

(** When copying chunk [k] fails, [stitchFile] reports it and leaves the
    final file on disk with the first [k] chunks concatenated. *)
Theorem stitch_copy_failure_keeps_partial (cfg : Config) (flt : Faults) fileName sz (st : State) k :
  mkdir_uploads_fails flt = false -> create_final_fails flt = false ->
  copy_final_fails flt = Some k ->
  let fp := finalPathOf cfg fileName in
  let chunks := GetChunks (fm st) fileName in
  Forall (fun p => p <> "" /\ p <> fp /\ is_Some (fs st !! p)) chunks ->
  (k < length chunks)%nat ->
  stitchFile cfg flt fileName sz st =
    (inl (ECopyChunk (Z.of_nat k)),
     with_fs st (<[fp := concat (map (fun p => default [] (fs st !! p)) (take k chunks))]> (fs st))).
Proof.
  intros H1 H2 H3 fp chunks Hall Hk. unfold stitchFile.
  rewrite H1, H2. fold fp chunks.
  set (f0 := <[fp := []]> (fs st)).
  assert (Hf0 : forall q, q <> fp -> f0 !! q = fs st !! q).
  { intros q Hq. unfold f0. rewrite lookup_insert_ne by congruence. reflexivity. }
  assert (Hall0 : Forall (fun p => p <> "" /\ p <> fp /\ is_Some (f0 !! p)) chunks).
  { eapply Forall_impl; [exact Hall|]. intros q (A & B & C). rewrite Hf0 by exact B. auto. }
  rewrite (copy_chunks_fail flt fileName fp 0 k chunks 0 f0 []); [| exact H3 | exact Hk |
    unfold f0; apply lookup_insert_eq | exact Hall0].
  assert (Hmap : map (fun q => default [] (f0 !! q)) (take k chunks) =
                 map (fun q => default [] (fs st !! q)) (take k chunks)).
  { apply map_ext_in. intros q Hq. apply list_elem_of_In, take_elem in Hq.
    rewrite Forall_forall in Hall. destruct (Hall q Hq) as (_ & B & _).
    rewrite Hf0 by exact B. reflexivity. }
  rewrite Hmap. unfold f0. rewrite insert_insert_eq. reflexivity.
Qed.


Lemma split_on_plain (g : string) :
  ~ In "/"%char (list_ascii_of_string g) -> split_on "/" g = [g].
Proof.
  induction g as [|a r IH]; intros H; [reflexivity|].
  cbn in H. cbn. destruct (ascii_dec a "/"); [tauto|].
  rewrite IH by tauto. reflexivity.
Qed.

Lemma split_on_app (a b : string) :
  ~ In "/"%char (list_ascii_of_string a) ->
  split_on "/" (sapp a (String "/" b)) = a :: split_on "/" b.
Proof.
  unfold sapp. induction a as [|c r IH]; intros H; [reflexivity|].
  cbn in H. simpl. destruct (ascii_dec c "/"); [tauto|].
  rewrite IH by tauto. reflexivity.
Qed.

Lemma clean_step_plain rooted stk g : plain_name g -> clean_step rooted stk g = g :: stk.
Proof.
  intros (H1 & H2 & H3 & _). unfold clean_step.
  destruct (String.eqb_spec g ""); [contradiction|].
  destruct (String.eqb_spec g "."); [contradiction|].
  destruct (String.eqb_spec g ".."); [contradiction|]. reflexivity.
Qed.

(** [filepath.Join("./D", "../" + g)] is [g]. *)
Lemma Join_dotdot (D g : string) :
  plain_name D -> plain_name g -> Join (sapp "./" D) (sapp "../" g) = g.
Proof.
  intros HD Hg. unfold Join.
  rewrite (proj2 (String.eqb_neq _ _)) by (cbn; discriminate).
  rewrite (proj2 (String.eqb_neq _ _)) by (cbn; discriminate).
  replace (sapp (sapp "./" D) (sapp "/" (sapp "../" g)))
    with (String "." (String "/" (sapp D (String "/" (String "." (String "." (String "/" g)))))))
    by reflexivity.
  unfold Clean. cbv beta iota zeta.
  change (split_on "/" (String "." (String "/" ?X))) with (split_on "/" (sapp "." (String "/" X))).
  change (String "." (String "." (String "/" g))) with (sapp ".." (String "/" g)).
  rewrite split_on_app by (cbn; intros [H|H]; [discriminate|exact H]).
  rewrite split_on_app by (destruct HD as (_ & _ & _ & H); exact H).
  rewrite split_on_app by (cbn; intros [H|[H|H]]; [discriminate|discriminate|exact H]).
  rewrite split_on_plain by (destruct Hg as (_ & _ & _ & H); exact H).
  cbn [fold_left].
  replace (clean_step false [] ".") with (@nil string) by reflexivity.
  rewrite (clean_step_plain _ _ D HD).
  replace (clean_step false [D] "..") with (@nil string)
    by (unfold clean_step; cbn;
        rewrite (proj2 (String.eqb_neq D "..")) by (destruct HD as (_ & _ & H & _); exact H);
        reflexivity).
  rewrite (clean_step_plain _ _ g Hg). cbn.
  destruct (String.eqb_spec g ""); [destruct Hg; contradiction|reflexivity].
Qed.

Lemma append_String (x : ascii) r b : sapp (String x r) b = String x (sapp r b).
Proof. reflexivity. Qed.

Lemma list_ascii_of_string_sapp a b :
  list_ascii_of_string (sapp a b) = list_ascii_of_string a ++ list_ascii_of_string b.
Proof.
  induction a as [|x r IH]; [reflexivity|].
  rewrite append_String. cbn. rewrite IH. reflexivity.
Qed.

Lemma dec_digits_no_slash fuel z acc :
  0 <= z -> ~ In "/"%char (list_ascii_of_string acc) ->
  ~ In "/"%char (list_ascii_of_string (dec_digits fuel z acc)).
Proof.
  revert z acc. induction fuel as [|f IH]; intros z acc Hz Hacc; cbn [dec_digits].
  - cbn. intros [E|E]; [|contradiction].
    pose proof (digit_val_char (z mod 10)) as Hd.
    rewrite E in Hd. cbn in Hd. specialize (Hd ltac:(apply Z.mod_pos_bound; lia)). discriminate.
  - destruct (Z.ltb_spec z 10) as [Ht|Ht].
    + cbn. intros [E|E]; [|contradiction].
      pose proof (digit_val_char z) as Hd.
      rewrite E in Hd. cbn in Hd. specialize (Hd ltac:(lia)). discriminate.
    + apply IH; [apply Z.div_pos; lia|].
      cbn. intros [E|E]; [|contradiction].
      pose proof (digit_val_char (z mod 10)) as Hd.
      rewrite E in Hd. cbn in Hd. specialize (Hd ltac:(apply Z.mod_pos_bound; lia)). discriminate.
Qed.

Lemma itoa_no_slash z : ~ In "/"%char (list_ascii_of_string (itoa z)).
Proof.
  unfold itoa.
  assert (H : ~ In "/"%char (list_ascii_of_string
                 (dec_digits (match Z.abs z with Zpos p => Pos.size_nat p | _ => 1%nat end)
                    (Z.abs z) EmptyString)))
    by (apply dec_digits_no_slash; [lia|cbn; tauto]).
  destruct (z <? 0); [cbn; intros [E|E]; [discriminate|contradiction]|exact H].
Qed.

Lemma plain_chunk_name g i : plain_name g -> plain_name (sapp g (sapp "_chunk_" (itoa i))).
Proof.
  intros (H1 & H2 & H3 & H4).
  destruct g as [|c r]; [contradiction|].
  assert (Hn : ~ In "/"%char (list_ascii_of_string (sapp (String c r) (sapp "_chunk_" (itoa i))))).
  { rewrite !list_ascii_of_string_sapp. rewrite !in_app_iff.
    pose proof (itoa_no_slash i).
    intros [E|[E|E]]; [tauto| |tauto]. cbn in E.
    repeat (destruct E as [E|E]; [discriminate|]); contradiction. }
  rewrite append_String. split; [discriminate|]. split; [|split; [|exact Hn]].
  - destruct r; rewrite ?append_String; discriminate.
  - destruct r as [|c' r']; [discriminate|]. destruct r'; rewrite ?append_String; discriminate.
Qed.

(** With the default directories, a name [../g] puts the chunk files and
    the final file next to the directories, not inside them. *)
Theorem dotdot_name_escapes (g : string) (i : Z) :
  plain_name g ->
  chunkPathOf (TempDir DefaultConfig) (sapp "../" g) i = sapp g (sapp "_chunk_" (itoa i)) /\
  finalPathOf DefaultConfig (sapp "../" g) = g /\
  (forall flt info b st fn p sz st',
     FileName info = sapp "../" g ->
     processChunk DefaultConfig flt info b st = (ROk (Complete fn p sz), st') -> p = g).
Proof.
  intros Hg.
  assert (HT : plain_name "temp_chunks")
    by (repeat split; try discriminate; cbn; intros E; repeat (destruct E as [E|E]; [discriminate|]); exact E).
  assert (HU : plain_name "uploads")
    by (repeat split; try discriminate; cbn; intros E; repeat (destruct E as [E|E]; [discriminate|]); exact E).
  assert (HF : finalPathOf DefaultConfig (sapp "../" g) = g)
    by (exact (Join_dotdot "uploads" g HU Hg)).
  split; [|split; [exact HF|]].
  - unfold chunkPathOf.
    exact (Join_dotdot "temp_chunks" _ HT (plain_chunk_name g i Hg)).
  - intros flt info b st fn p sz st' Hn Hp.
    apply processChunk_complete_path in Hp. rewrite Hp, Hn. exact HF.
Qed.

Lemma Join_plain (D s : string) :
  plain_name D -> plain_name s -> Join (sapp "./" D) s = sapp D (String "/" s).
Proof.
  intros HD Hs. unfold Join.
  rewrite (proj2 (String.eqb_neq _ _)) by (cbn; discriminate).
  rewrite (proj2 (String.eqb_neq s _)) by (destruct Hs as (H & _); exact H).
  replace (sapp (sapp "./" D) (sapp "/" s))
    with (String "." (String "/" (sapp D (String "/" s)))) by reflexivity.
  unfold Clean. cbv beta iota zeta.
  change (split_on "/" (String "." (String "/" ?X))) with (split_on "/" (sapp "." (String "/" X))).
  rewrite split_on_app by (cbn; intros [H|H]; [discriminate|exact H]).
  rewrite split_on_app by (destruct HD as (_ & _ & _ & H); exact H).
  rewrite split_on_plain by (destruct Hs as (_ & _ & _ & H); exact H).
  cbn [fold_left].
  replace (clean_step false [] ".") with (@nil string) by reflexivity.
  rewrite (clean_step_plain _ _ D HD), (clean_step_plain _ _ s Hs). cbn.
  destruct HD as (HD1 & _). destruct D as [|c r]; [contradiction|].
  rewrite append_String. reflexivity.
Qed.

Lemma ext_rev_no_slash r acc :
  ~ In "/"%char acc -> ~ In "/"%char (ext_rev r acc).
Proof.
  revert acc. induction r as [|c r IH]; intros acc Hacc; cbn; [tauto|].
  destruct (ascii_dec c "/") as [E|E]; [tauto|].
  destruct (ascii_dec c "."); [cbn; intros [E'|E']; [congruence|tauto]|].
  apply IH. cbn. intros [E'|E']; [congruence|tauto].
Qed.

Lemma Ext_no_slash p : ~ In "/"%char (list_ascii_of_string (Ext p)).
Proof.
  unfold Ext. rewrite list_ascii_of_string_of_list_ascii.
  apply ext_rev_no_slash. cbn. tauto.
Qed.

Lemma sapp_empty_inv r e : sapp r e = "" -> r = "" /\ e = "".
Proof. destruct r; [intros E; split; [reflexivity|exact E]|rewrite append_String; discriminate]. Qed.

Lemma plain_stored_name guid e :
  plain_name guid -> ~ In "/"%char (list_ascii_of_string e) -> plain_name (sapp guid e).
Proof.
  intros (H1 & H2 & H3 & H4) He.
  destruct guid as [|c r]; [contradiction|].
  rewrite append_String. split; [discriminate|]. split; [|split].
  - intros E. injection E as -> E. apply sapp_empty_inv in E as [-> ->]. contradiction.
  - intros E. injection E as -> E.
    destruct r as [|c' r'].
    + contradiction H2. reflexivity.
    + rewrite append_String in E. injection E as -> E.
      apply sapp_empty_inv in E as [-> ->]. contradiction.
  - rewrite <- append_String, list_ascii_of_string_sapp, in_app_iff. tauto.
Qed.

(** For a single-element [guid], the legacy helper stores the file as
    [uploads/<guid><ext>], whatever name the client sent. *)
Theorem legacy_final_path_confined (flt : Faults) guid fileName sz (st : State) md st' :
  plain_name guid ->
  legacy_stitchFile flt guid fileName sz st = (inr md, st') ->
  MPath md = sapp "uploads" (String "/" (sapp guid (Ext fileName))) /\
  MStoredName md = sapp guid (Ext fileName).
Proof.
  intros Hg H. unfold legacy_stitchFile in H. cbv zeta in H.
  assert (HU : plain_name "uploads")
    by (repeat split; try discriminate; cbn; intros E; repeat (destruct E as [E|E]; [discriminate|]); exact E).
  assert (EJ : Join "./uploads" (sapp guid (Ext fileName)) =
               sapp "uploads" (String "/" (sapp guid (Ext fileName))))
    by (exact (Join_plain "uploads" _ HU (plain_stored_name guid _ Hg (Ext_no_slash fileName)))).
  rewrite EJ in H.
  repeat (case_match; simplify_eq/=; try done).
Qed.

Lemma extractChunkInfo_chunk_form_witness :
  FileName (mkInfo "a.bin" 1 2 11) <> "" /\
  Form sample_request = chunk_form (mkInfo "a.bin" 1 2 11) ++ [] /\
  extractChunkInfo sample_request = inr (mkInfo "a.bin" 1 2 11).
Proof.
  split; [discriminate|]. split; [reflexivity|].
  apply (extractChunkInfo_chunk_form (mkInfo "a.bin" 1 2 11) sample_request []);
    [discriminate|reflexivity].
Defined.

Lemma processChunk_panics_witness :
  processChunk DefaultConfig NoFaults (mkInfo "a.bin" 5 2 11) (bytes "x") sample_state =
    (RPanic,
     {| fm := fm sample_state;
        fs := <[chunkPathOf "./temp_chunks" "a.bin" 5 := bytes "x"]> (fs sample_state) |}).
Proof.
  apply (processChunk_panics DefaultConfig NoFaults (mkInfo "a.bin" 5 2 11) (bytes "x") sample_state);
    [reflexivity|reflexivity|reflexivity|].
  split; reflexivity.
Defined.

Lemma zero_total_poisons_witness :
  (processChunk DefaultConfig NoFaults (mkInfo "z.bin" 0 0 0) (bytes "x") emptyState).1 = RPanic /\
  GetStatus (processChunk DefaultConfig NoFaults (mkInfo "z.bin" 0 0 0) (bytes "x") emptyState).2 "z.bin" =
    {| SFileName := "z.bin"; SIsComplete := true; SReceivedChunks := 0; STotalChunks := 0 |}.
Proof.
  destruct (zero_total_poisons DefaultConfig NoFaults (mkInfo "z.bin" 0 0 0) (bytes "x") emptyState)
    as (H1 & _ & H3 & _); [reflexivity|reflexivity|reflexivity|reflexivity|reflexivity|].
  split; [exact H1|exact H3].
Defined.

Lemma complete_entry_restitches_witness :
  IsComplete (fm (processChunk keep_config NoFaults (mkInfo "a.bin" 1 2 11) (bytes " World") sample_state).2) "a.bin" = true /\
  match (processChunk DefaultConfig NoFaults (mkInfo "a.bin" 0 2 11) (bytes "Hello") two_chunk_state).1 with
  | ROk (Complete _ _ _) | RErr (EStitching _) => True
  | _ => False
  end.
Proof.
  destruct (complete_entry_restitches keep_config) as [Ha _].
  destruct (complete_entry_restitches DefaultConfig) as [_ Hb].
  split.
  - apply (Ha NoFaults (mkInfo "a.bin" 1 2 11) (bytes " World") sample_state "uploads/a.bin" 11 _);
      [reflexivity|].
    apply injective_projections; [vm_compute; reflexivity|reflexivity].
  - apply (Hb NoFaults (mkInfo "a.bin" 0 2 11) (bytes "Hello") two_chunk_state ["p0"; "p1"]);
      try reflexivity. cbn. lia.
Defined.

Lemma stitch_copy_failure_keeps_partial_witness :
  stitchFile DefaultConfig final_copy_fault "a.bin" 11 two_chunk_state =
    (inl (ECopyChunk 1),
     with_fs two_chunk_state (<[ "uploads/a.bin" := bytes "Hello" ]> (fs two_chunk_state))).
Proof.
  refine (eq_trans (stitch_copy_failure_keeps_partial DefaultConfig final_copy_fault "a.bin" 11
                      two_chunk_state 1%nat _ _ _ _ _) _).
  - reflexivity.
  - reflexivity.
  - reflexivity.
  - repeat constructor; try discriminate; try (vm_compute; discriminate); eexists; reflexivity.
  - apply Nat.ltb_lt. vm_compute. reflexivity.
  - reflexivity.
Defined.


Lemma dotdot_name_escapes_witness :
  plain_name "secret" /\
  chunkPathOf (TempDir DefaultConfig) "../secret" 0 = "secret_chunk_0" /\
  finalPathOf DefaultConfig "../secret" = "secret".
Proof.
  assert (Hg : plain_name "secret")
    by (repeat split; try discriminate; cbn; intros E; repeat (destruct E as [E|E]; [discriminate|]); exact E).
  destruct (dotdot_name_escapes "secret" 0 Hg) as (H1 & H2 & _).
  split; [exact Hg|]. split; [exact H1|exact H2].
Defined.

Lemma legacy_final_path_confined_witness :
  plain_name "g1" /\
  (legacy_stitchFile NoFaults "g1" "../photo.JPG" 11 dotdot_state).1 = inr dotdot_md /\
  MPath dotdot_md = "uploads/g1.JPG".
Proof.
  assert (Hg : plain_name "g1")
    by (repeat split; try discriminate; cbn; intros E; repeat (destruct E as [E|E]; [discriminate|]); exact E).
  assert (E : (legacy_stitchFile NoFaults "g1" "../photo.JPG" 11 dotdot_state).1 = inr dotdot_md)
    by (vm_compute; reflexivity).
  split; [exact Hg|]. split; [exact E|].
  destruct (legacy_final_path_confined NoFaults "g1" "../photo.JPG" 11 dotdot_state dotdot_md
              (legacy_stitchFile NoFaults "g1" "../photo.JPG" 11 dotdot_state).2 Hg)
    as [HP _].
  - rewrite <- E. apply surjective_pairing.
  - rewrite HP. reflexivity.
Defined.
